(* ===== verification/_CoqProject ===== *)
-Q . S2P
Prelude.v
JsString.v
JsArray.v
JsSet.v
User.v
Filter.v
UserCard.v
App.v
Session.v
