(* ===== verification/Prelude.v ===== *)
(** * A verification development of the User Profile Directory

    The program (src/src/app.jsx, src/src/components/UserCard.jsx) is a
    React page.  [App] fetches a list of user records once, on mount, from
    a fixed URL; keeps seven pieces of React state (users, loading, error,
    search, cityFilter, companyFilter, darkMode); derives the distinct
    cities and companies of the loaded users; filters the users by a
    case-insensitive search on name or username and by the selected city
    and company; and renders a header with the controls and a body that is
    a loading line, an error line, or a grid of [UserCard]s keyed by user
    id.  [UserCard] renders one record and keeps one boolean of its own,
    [showMore], that discloses phone, website and street address.  The
    two components interact through props (one record per card, by
    reference) and through React's keyed reconciliation, which decides
    which card keeps which [showMore].

    ** Files, and the code each one models

    - [Prelude] (this file): JavaScript exceptions [exn] and the
      [completion] type ([Normal] value or [Throw]n exception) with its
      bind notation [x <- c ;; k] in [js_scope]; truthiness of strings and
      of [null]-or-string; the [directory] hint database and the
      [js_simpl] rewrite database; shared tactics and list lemmas.
    - [JsString] (Module [StringProto]): [String.prototype.toLowerCase]
      on Latin-1 code units and [String.prototype.includes] (the engine's
      scan of every start position), with [includes_spec] (occurrence iff
      a split [p ++ t ++ q]), [includes_index] (agreement with the
      Standard Library's [String.index]) and the case-folding lemmas.
    - [JsArray] (Module [ArrayProto]): [Array.prototype.filter] and [map]
      with callbacks that may throw (the first throw aborts the call), and
      what a normal result implies; facts about [List.filter].
    - [JsSet] (Module [SetObj]): [new Set(xs)] as an insertion-ordered
      entry list, [Set.prototype.add], [Array.from]; [distinct] is their
      composition, proved equal to [rev (nodup dec (rev xs))].
    - [User] (Modules [Address], [Company], [User], [UserRecord]): the
      record shape; the reads [u.address.city], [u.company.name],
      [u.address.street], [u.address.zipcode], which throw the engine's
      [TypeError] when the nested object is absent; a small [Fixture].
    - [Filter] (Module [Directory]): app.jsx lines 30-40 -- [cities],
      [companies], the three callbacks and [filteredUsers]; the spec's
      predicate [criteria_match], written independently of the callbacks
      (substring by the Standard Library's [String.index], selections
      compared with [""]); the setoid [ci_equiv] of search texts
      equal up to case with [Proper] instances.
    - [UserCard] (Module [Card]): [showMore] with its toggle and the
      two-state machine [card_step]; [render_card]; the class
      [CardComponent], the interface [App] relies on, implemented by the
      instance [user_card]; the keyed [CardStore] with [reconcile] and
      [toggle_card], proved against the interface.  The store is keyed
      by [user.id], as React keys the cards; this is faithful when ids are
      unique, as the spec assumes (see Not modelled).
    - [App] (Module [AppModel]): the state record and setter [Update]s;
      the fetch chain ([then_json], [fetch_settle]); [render] of lines
      42-91; the handlers; batched ([commit_batched], React 18) and
      unbatched ([commit_unbatched], React 17 in promise callbacks)
      rendering of one callback's updates; [render_grid] of the cards over
      any [CardComponent], and [render_page], one frame: [render], then
      the [UserCard] children of its grid.
    - [Session] (Module [AppSession]): the [Event]s a mounted [App]
      receives and the callbacks they run ([handler], [card_effect]); the
      session as the step relation [step] from [session_init] over a
      [Session] of the App state, the pending fetch and the store of
      mounted cards ([mounted_cards] reconciles the store with the keys of
      each new render), with [run_event], [reachable], [session_step]
      (any event, closed under stdpp's [rtc]) and the invariant [inv].

    ** What the theorems show

    - Filter: [filteredUsers_refines] (refinement: on records with both
      nested objects the pipeline is [List.filter criteria_match]);
      [filteredUsers_elem_of] (membership contract, with no
      well-formedness hypothesis); the empty criteria,
      case-insensitivity, narrowing as the search text grows;
      [option_lists_spec] (each city and each company once, nothing else;
      both lists through the one lemma [distinct_map_values]) and
      [cities_first_seen] (first-seen order); [city_option_nonempty]; and
      the error behaviour: [filteredUsers_no_selection_total],
      [filteredUsers_city_throw].
    - UserCard: [render_card_spec], [render_card_throw],
      [reconcile_spec].
    - App: the settlement theorems [fetch_settle_success] and
      [fetch_settle_status_discarded]; [toggle_dark_mode_frame],
      [toggle_twice_batched]; [controlled_inputs_roundtrip] (a value
      entered in the search input or a select is the value it shows
      next); [click_card_one_card] (proved for every [CardComponent]);
      [render_page_total] (no card throws once [App] has rendered).
    - Session: [reachable_inv] (invariant, by rule induction over
      [step]); [reachable_single_section] (exactly one of loading, error,
      grid); [reachable_view_wf] (the rendered view is well formed: a
      select's value is among its options, grids keyed by ids with the
      "no match" line exactly when empty); [fetch_settles_loading_ends]
      (liveness: the settlement is always a step, and loading never
      returns after it);
      [empty_message_shows_no_match], [settle_missing_address_unmounts]
      (a record without [address] unmounts the page for good);
      [unbatched_failure_frame] against [batched_failure_frame];
      [search_settle_commute] (typing while loading and the settlement
      commute: both orders reach the same session); [card_state_kept] (a
      card keeps its state across events that keep it shown),
      [card_click_step] (a card click flips that card only),
      [card_mounts_collapsed]; on the page, [frame] of a session is
      [render_page] of its state and store: [render_page_mounted]
      (reconciling the store never changes the frame),
      [card_click_frame] (after a click on card [k] the next frame differs
      only in card [k], whose details flip) and [reachable_page_cards] (every card shown renders
      with the state the session's store holds for its key).
    - Each theorem with hypotheses has a [_witness] that applies it to the
      [Fixture] records, evaluated by [vm_compute] or [reflexivity].

    ** Modelling choices, bounds and fuel

    - Strings are Rocq [string]s, read as sequences of Latin-1 code units
      (U+0000 to U+00FF); [toLowerCase] is the exact Unicode lower-case
      mapping on that range.  Characters beyond U+00FF are not modelled.
    - A JS exception is a value of [exn]; every computation that can throw
      returns a [completion].  A render that throws unmounts the page, so
      [step] offers no page event after such a render.
    - The fetched body is modelled as already decoded into records; only
      the nested [address] and [company] objects may be missing (the
      spec's open question).  The request outcome is an input.
    - An HTTP status is an unbounded [Z]; [res_ok] is 200-299.
    - No fuel: every loop of the program is a structural recursion over a
      finite list, and every definition computes.

    ** Not modelled

    Styling (class names other than the dark-mode switch), the DOM,
    browser events beyond the value each handler receives, the network,
    a body that is not an array, React's development-mode double effect
    invocation.  Repeated user ids: the card store is keyed by id, so the
    model assumes ids are unique, as the spec does; with repeated keys
    React warns and keeps one state per card instance, which the store
    does not represent, so no theorem is stated for that case.

    ** Further work

    The commutation of the settlement with the mode button, the other
    page event possible while loading (the selects then offer only "");
    frame-level counterparts of the remaining session theorems, by
    [render_page_mounted]; the [companies] counterparts of the
    city-specific theorems ([cities_first_seen], [city_option_nonempty]),
    which would repeat their proofs with [company_of]. *)

From Stdlib Require Export Ascii String ZArith.
From stdpp Require Export base list strings sets.
Export ListNotations.
Local Open Scope string_scope.

(** ** Exceptions and completions *)

(** The three exception classes the program can raise: a [TypeError]
    (property read on [undefined], or a failed network request), an
    [Error] ([throw new Error(...)]) and a [SyntaxError] ([res.json()] on
    a malformed body). *)
Inductive exn :=
  | TypeError (msg : string)
  | Error (msg : string)
  | SyntaxError (msg : string).

(** [err.message] *)
Definition exn_message (e : exn) : string :=
  match e with TypeError m | Error m | SyntaxError m => m end.

(** The result of evaluating a JavaScript expression: a value, or an
    exception in flight. *)
Inductive completion (A : Type) :=
  | Normal (a : A)
  | Throw (e : exn).
Arguments Normal {A} a.
Arguments Throw {A} e.

Definition cbind {A B} (c : completion A) (k : A -> completion B) : completion B :=
  match c with Normal a => k a | Throw e => Throw e end.

Definition cmap {A B} (f : A -> B) (c : completion A) : completion B :=
  cbind c (fun a => Normal (f a)).

Declare Scope js_scope.
Delimit Scope js_scope with js.
Notation "x <- c ;; k" := (cbind c (fun x => k))
  (at level 60, c at next level, right associativity) : js_scope.
Open Scope js_scope.

Definition is_normal {A} (c : completion A) : bool :=
  match c with Normal _ => true | Throw _ => false end.

(** ** Truthiness *)

(** A string is truthy iff it is not empty. *)
Definition truthy_str (s : string) : bool :=
  match s with EmptyString => false | String _ _ => true end.

(** [null] or a string, as the [error] state holds. *)
Definition truthy_opt_str (o : option string) : bool :=
  match o with None => false | Some s => truthy_str s end.

(** ** Automation *)

Create HintDb directory discriminated.
Create Rewrite HintDb js_simpl.

Lemma cbind_normal {A B} (a : A) (k : A -> completion B) :
  cbind (Normal a) k = k a.
Proof. reflexivity. Qed.

Lemma cbind_throw {A B} (e : exn) (k : A -> completion B) :
  cbind (Throw e) k = Throw e.
Proof. reflexivity. Qed.

Lemma cbind_assoc {A B C} (c : completion A) (f : A -> completion B)
      (g : B -> completion C) :
  cbind (cbind c f) g = cbind c (fun a => cbind (f a) g).
Proof. by destruct c. Qed.

Lemma cbind_Normal_inv {A B} (c : completion A) (k : A -> completion B) b :
  cbind c k = Normal b -> exists a, c = Normal a /\ k a = Normal b.
Proof. destruct c; simpl; [eauto | discriminate]. Qed.

Lemma Normal_inj_iff {A} (a b : A) : Normal a = Normal b <-> a = b.
Proof. split; congruence. Qed.

Lemma truthy_str_false s : truthy_str s = false <-> s = "".
Proof. destruct s; simpl; split; congruence. Qed.

Lemma negb_truthy_str s : negb (truthy_str s) = String.eqb s "".
Proof. by destruct s. Qed.

Lemma truthy_str_true s : truthy_str s = true <-> s <> "".
Proof. destruct s; simpl; split; congruence. Qed.

#[export] Hint Rewrite @cbind_normal @cbind_throw @cbind_assoc : js_simpl.

(** Unfold binds whose scrutinee has become a value. *)
Ltac js_simp := repeat (autorewrite with js_simpl in *; simpl in *).

(** Case on the boolean tests and the completions the goal inspects. *)
Ltac js_case :=
  repeat match goal with
  | |- context [match ?c with Normal _ => _ | Throw _ => _ end] =>
      destruct c eqn:?
  | |- context [if ?b then _ else _] => destruct b eqn:?
  end.

(** ** Shared list lemmas *)

(** Membership in a Standard Library [map]. *)
Lemma forallb_elem_of {A} (p : A -> bool) (l : list A) (x : A) :
  forallb p l = true -> x ∈ l -> p x = true.
Proof. rewrite forallb_forall, list_elem_of_In. intros H Hx. by apply H. Qed.

Lemma elem_of_map {A B} (f : A -> B) (l : list A) (y : B) :
  y ∈ map f l <-> exists x, y = f x /\ x ∈ l.
Proof.
  rewrite list_elem_of_In, in_map_iff.
  setoid_rewrite list_elem_of_In. naive_solver.
Qed.

#[export] Hint Resolve sublist_nil_l sublist_skip sublist_cons elem_of_sublist : directory.
