(* ===== verification/JsString.v ===== *)
(** [String.prototype.toLowerCase] and [String.prototype.includes], the
    two string methods the search of app.jsx (lines 37-38) calls.  A string
    is a sequence of Latin-1 code units; [toLowerCase] is the Unicode
    lower-case mapping restricted to that range, and [includes] is the
    engine's scan of every start position.  The file proves the substring
    characterisation of [includes] and the case-folding facts the search
    relies on. *)

From S2P Require Import Prelude.
Local Open Scope string_scope.

Module StringProto.

(** ** Lower-casing *)

(** The Latin-1 code units that have a lower-case mapping: A-Z
    (U+0041-U+005A) and U+00C0-U+00DE except the multiplication sign
    U+00D7.  Each maps to the code unit 0x20 above it. *)
Definition is_upper_code (n : nat) : bool :=
  (((65 <=? n) && (n <=? 90)) || ((192 <=? n) && (n <=? 222) && negb (n =? 215)))%nat.

Definition lower_char (c : ascii) : ascii :=
  let n := nat_of_ascii c in
  if is_upper_code n then ascii_of_nat (n + 32)%nat else c.

(** [s.toLowerCase()]: maps every code unit. *)
Fixpoint toLowerCase (s : string) : string :=
  match s with
  | EmptyString => EmptyString
  | String c s' => String (lower_char c) (toLowerCase s')
  end.

(** ** Substring search *)

(** Does [s] start with [t]?  (The comparison loop of StringIndexOf at
    one start position.) *)
Fixpoint startsWith (s t : string) : bool :=
  match t, s with
  | EmptyString, _ => true
  | String c t', String d s' => Ascii.eqb c d && startsWith s' t'
  | String _ _, EmptyString => false
  end.

(** [s.includes(t)]: some start position of [s] begins an occurrence of
    [t]; the empty string occurs at every position. *)
Fixpoint includes (s t : string) : bool :=
  startsWith s t ||
  match s with
  | EmptyString => false
  | String _ s' => includes s' t
  end.

(** ** Lemmas *)

(** stdpp makes [String.append] opaque to [simpl]; its two equations. *)
Lemma string_app_nil_l s : "" ++ s = s.
Proof. reflexivity. Qed.

Lemma string_app_cons c s t : String c s ++ t = String c (s ++ t).
Proof. reflexivity. Qed.

Lemma string_app_nil_r s : s ++ "" = s.
Proof. induction s as [|c s IH]; [done|]. by rewrite string_app_cons, IH. Qed.

Lemma string_app_assoc s t u : s ++ (t ++ u) = (s ++ t) ++ u.
Proof. induction s as [|c s IH]; [done|]. by rewrite !string_app_cons, IH. Qed.

Lemma lower_char_idem c : lower_char (lower_char c) = lower_char c.
Proof. destruct c as [[] [] [] [] [] [] [] []]; reflexivity. Qed.

Lemma toLowerCase_idem s : toLowerCase (toLowerCase s) = toLowerCase s.
Proof. induction s as [|c s IH]; simpl; [done|]. by rewrite lower_char_idem, IH. Qed.

Lemma toLowerCase_app s t : toLowerCase (s ++ t) = toLowerCase s ++ toLowerCase t.
Proof.
  induction s as [|c s IH]; [done|].
  rewrite string_app_cons. simpl. by rewrite IH.
Qed.

Lemma toLowerCase_length s : String.length (toLowerCase s) = String.length s.
Proof. induction s as [|c s IH]; simpl; congruence. Qed.

Lemma startsWith_spec s t : startsWith s t = true <-> exists q, s = t ++ q.
Proof.
  revert s. induction t as [|c t IH]; intros [|d s]; simpl.
  - split; eauto.
  - split; eauto.
  - split; [discriminate | intros [q Hq]; discriminate].
  - rewrite andb_true_iff, IH. split.
    + intros [Hc [q ->]]. apply Ascii.eqb_eq in Hc as ->. eauto.
    + intros [q Hq]. rewrite string_app_cons in Hq.
      injection Hq as -> ->. rewrite Ascii.eqb_refl. eauto.
Qed.

Lemma includes_spec s t :
  includes s t = true <-> exists p q, s = p ++ t ++ q.
Proof.
  induction s as [|d s IH]; cbn [includes]; rewrite orb_true_iff, startsWith_spec.
  - split.
    + intros [[q Hq] | H]; [exists "", q; simpl; done | discriminate].
    + intros [[|c p] [q Hq]]; [left; eauto | discriminate].
  - rewrite IH. split.
    + intros [[q Hq] | [p [q Hq]]].
      * exists "", q. done.
      * exists (String d p), q. by rewrite string_app_cons, Hq.
    + intros [[|c p] [q Hq]]; rewrite ?string_app_cons in Hq.
      * left. eauto.
      * injection Hq as -> ->. right. eauto.
Qed.

Lemma includes_empty s : includes s "" = true.
Proof. apply includes_spec. exists "", s. done. Qed.

Lemma includes_refl s : includes s s = true.
Proof. apply includes_spec. exists "", "". by rewrite string_app_nil_r. Qed.

(** An occurrence of [t ++ u] contains an occurrence of [t]. *)
Lemma includes_app_needle s t u : includes s (t ++ u) = true -> includes s t = true.
Proof.
  rewrite !includes_spec. intros [p [q ->]].
  exists p, (u ++ q). by rewrite <- !string_app_assoc.
Qed.

(** Occurrence is transitive. *)
Lemma includes_trans s t u :
  includes s t = true -> includes t u = true -> includes s u = true.
Proof.
  rewrite !includes_spec. intros [p [q ->]] [p' [q' ->]].
  exists (p ++ p'), (q' ++ q). by rewrite <- !string_app_assoc.
Qed.

(** Lower-casing preserves occurrences. *)
Lemma includes_toLowerCase s t :
  includes s t = true -> includes (toLowerCase s) (toLowerCase t) = true.
Proof.
  rewrite !includes_spec. intros [p [q ->]].
  exists (toLowerCase p), (toLowerCase q). by rewrite !toLowerCase_app.
Qed.

(** [startsWith] is the Standard Library's [prefix] with its arguments
    swapped. *)
Lemma startsWith_prefix s t : startsWith s t = String.prefix t s.
Proof.
  revert s. induction t as [|c t IH]; intros [|d s]; simpl; try done.
  destruct (Ascii.ascii_dec c d) as [->|Hne].
  - rewrite Ascii.eqb_refl. apply IH.
  - apply Ascii.eqb_neq in Hne. by rewrite Hne.
Qed.

(** [includes] agrees with the Standard Library's [String.index]: the
    needle occurs iff [index 0] finds a position. *)
Theorem includes_index s t :
  includes s t = match String.index 0 t s with Some _ => true | None => false end.
Proof.
  induction s as [|d s IH]; cbn [includes String.index].
  - by destruct t.
  - rewrite startsWith_prefix, IH.
    destruct (String.prefix t (String d s)); [done|].
    simpl. by destruct (String.index 0 t s).
Qed.

End StringProto.
Export StringProto.

#[export] Hint Resolve includes_empty includes_refl : directory.
#[export] Hint Rewrite toLowerCase_idem toLowerCase_app string_app_nil_l string_app_cons : js_simpl.
