(* ===== verification/JsArray.v ===== *)
(** [Array.prototype.filter] and [Array.prototype.map], the two array
    methods app.jsx chains (lines 31-32 and 35-40).  The engine calls the
    callback on the elements in index order; a callback that throws aborts
    the call and the exception propagates.  Callbacks therefore return a
    [completion]; a pure callback [p] is [fun x => Normal (p x)], for which
    both methods coincide with the Standard Library's [List.filter] and
    [List.map].  The file also holds the list facts about [List.filter]
    that the search pipeline composes. *)

From S2P Require Import Prelude.

Module ArrayProto.

Section Methods.
Context {A B : Type}.

(** [xs.filter(cb)] *)
Fixpoint array_filter (cb : A -> completion bool) (xs : list A) : completion (list A) :=
  match xs with
  | [] => Normal []
  | x :: xs' =>
      keep <- cb x ;;
      rest <- array_filter cb xs' ;;
      Normal (if keep then x :: rest else rest)
  end.

(** [xs.map(cb)] *)
Fixpoint array_map (cb : A -> completion B) (xs : list A) : completion (list B) :=
  match xs with
  | [] => Normal []
  | x :: xs' =>
      y <- cb x ;;
      ys <- array_map cb xs' ;;
      Normal (y :: ys)
  end.

(** ** With a callback that does not throw *)

Lemma array_filter_pure (p : A -> bool) xs :
  array_filter (fun x => Normal (p x)) xs = Normal (List.filter p xs).
Proof. induction xs as [|x xs IH]; simpl; [done|]. rewrite IH. by destruct (p x). Qed.

Lemma array_map_pure (f : A -> B) xs :
  array_map (fun x => Normal (f x)) xs = Normal (List.map f xs).
Proof. induction xs as [|x xs IH]; simpl; [done|]. by rewrite IH. Qed.

(** Only the callback's values on the elements matter. *)
Lemma array_filter_ext (cb1 cb2 : A -> completion bool) xs :
  (forall x, x ∈ xs -> cb1 x = cb2 x) -> array_filter cb1 xs = array_filter cb2 xs.
Proof.
  induction xs as [|x xs IH]; intros Hext; simpl; [done|].
  rewrite Hext by set_solver. rewrite IH by set_solver. done.
Qed.

Lemma array_map_ext (cb1 cb2 : A -> completion B) xs :
  (forall x, x ∈ xs -> cb1 x = cb2 x) -> array_map cb1 xs = array_map cb2 xs.
Proof.
  induction xs as [|x xs IH]; intros Hext; simpl; [done|].
  rewrite Hext by set_solver. rewrite IH by set_solver. done.
Qed.

(** A callback that agrees with a pure predicate on every element. *)
Lemma array_filter_agree (cb : A -> completion bool) (p : A -> bool) xs :
  (forall x, x ∈ xs -> cb x = Normal (p x)) ->
  array_filter cb xs = Normal (List.filter p xs).
Proof. intros H. rewrite (array_filter_ext _ (fun x => Normal (p x))) by done. apply array_filter_pure. Qed.

Lemma array_map_agree (cb : A -> completion B) (f : A -> B) xs :
  (forall x, x ∈ xs -> cb x = Normal (f x)) ->
  array_map cb xs = Normal (List.map f xs).
Proof. intros H. rewrite (array_map_ext _ (fun x => Normal (f x))) by done. apply array_map_pure. Qed.

(** ** The first throwing callback decides the outcome *)

Lemma array_filter_throw (cb : A -> completion bool) pre y post e :
  (forall x, x ∈ pre -> is_normal (cb x) = true) -> cb y = Throw e ->
  array_filter cb (pre ++ y :: post) = Throw e.
Proof.
  induction pre as [|x pre IH]; intros Hpre Hy; simpl; [by rewrite Hy|].
  destruct (cb x) eqn:Hx.
  - rewrite IH by set_solver. done.
  - specialize (Hpre x ltac:(set_solver)). by rewrite Hx in Hpre.
Qed.

Lemma array_map_throw (cb : A -> completion B) pre y post e :
  (forall x, x ∈ pre -> is_normal (cb x) = true) -> cb y = Throw e ->
  array_map cb (pre ++ y :: post) = Throw e.
Proof.
  induction pre as [|x pre IH]; intros Hpre Hy; simpl; [by rewrite Hy|].
  destruct (cb x) eqn:Hx.
  - rewrite IH by set_solver. done.
  - specialize (Hpre x ltac:(set_solver)). by rewrite Hx in Hpre.
Qed.

(** ** What a normal result tells *)

Lemma array_filter_Normal_elem_of (cb : A -> completion bool) xs r x :
  array_filter cb xs = Normal r -> x ∈ r <-> x ∈ xs /\ cb x = Normal true.
Proof.
  revert r. induction xs as [|y xs IH]; intros r; simpl.
  - intros [= <-]. set_solver.
  - destruct (cb y) as [b|] eqn:Hy; [|discriminate]. simpl.
    destruct (array_filter cb xs) as [r'|]; [|discriminate]. simpl. intros [= <-].
    specialize (IH r' eq_refl). rewrite elem_of_cons.
    destruct b; rewrite ?elem_of_cons, IH; split.
    + intros [->|[]]; auto.
    + intros [[->|] ?]; auto.
    + intros []; auto.
    + intros [[->|] ?]; [congruence | auto].
Qed.

Lemma array_filter_Normal_sublist (cb : A -> completion bool) xs r :
  array_filter cb xs = Normal r -> r `sublist_of` xs.
Proof.
  revert r. induction xs as [|y xs IH]; intros r; simpl; [by intros [= <-]|].
  destruct (cb y) as [b|]; [|discriminate]. simpl.
  destruct (array_filter cb xs) as [r'|]; [|discriminate]. simpl. intros [= <-].
  destruct b; [apply sublist_skip | apply sublist_cons]; auto.
Qed.

Lemma array_filter_all_true (cb : A -> completion bool) xs :
  (forall x, x ∈ xs -> cb x = Normal true) -> array_filter cb xs = Normal xs.
Proof.
  induction xs as [|x xs IH]; intros H; simpl; [done|].
  rewrite H by set_solver. rewrite IH by set_solver. done.
Qed.

(** Filtering a result again with the same callback returns it. *)
Lemma array_filter_Normal_idem (cb : A -> completion bool) xs r :
  array_filter cb xs = Normal r -> array_filter cb r = Normal r.
Proof.
  intros H. apply array_filter_all_true. intros x Hx.
  by apply (array_filter_Normal_elem_of cb xs r x H) in Hx as [_ ?].
Qed.

(** A callback that returns normally on every element: the filter
    returns normally. *)
Lemma array_filter_total (cb : A -> completion bool) xs :
  (forall x, x ∈ xs -> is_normal (cb x) = true) -> exists r, array_filter cb xs = Normal r.
Proof.
  induction xs as [|x xs IH]; intros H; simpl; [by eexists|].
  destruct (cb x) as [b|] eqn:Hx; [|specialize (H x ltac:(set_solver)); by rewrite Hx in H].
  destruct IH as [r ->]; [set_solver|]. by eexists.
Qed.

(** A callback that returns normally on every element: the call returns
    normally, one result per element. *)
Lemma array_map_total (cb : A -> completion B) xs :
  (forall x, x ∈ xs -> is_normal (cb x) = true) ->
  exists ys, array_map cb xs = Normal ys /\ length ys = length xs.
Proof.
  induction xs as [|x xs IH]; intros H; simpl; [by exists []|].
  destruct (cb x) as [y|] eqn:Hx; [|specialize (H x ltac:(set_solver)); by rewrite Hx in H].
  destruct IH as (ys & -> & Hl); [set_solver|]. exists (y :: ys). simpl. by rewrite Hl.
Qed.

Lemma array_map_Normal (cb : A -> completion B) xs ys :
  array_map cb xs = Normal ys -> Forall2 (fun x y => cb x = Normal y) xs ys.
Proof.
  revert ys. induction xs as [|x xs IH]; intros ys; simpl; [by intros [= <-]|].
  destruct (cb x) as [y|] eqn:Hx; [|discriminate]. simpl.
  destruct (array_map cb xs) as [ys'|]; [|discriminate]. simpl. intros [= <-].
  constructor; auto.
Qed.

End Methods.

(** ** Facts about [List.filter] *)

Section FilterFacts.
Context {A : Type}.
Implicit Types (p q : A -> bool) (xs : list A).

Lemma filter_elem_of p xs x : x ∈ List.filter p xs <-> x ∈ xs /\ p x = true.
Proof. rewrite !list_elem_of_In. apply filter_In. Qed.

Lemma filter_sublist_of p xs : List.filter p xs `sublist_of` xs.
Proof.
  induction xs as [|x xs IH]; simpl; [done|].
  destruct (p x); [by apply sublist_skip | by apply sublist_cons].
Qed.

(** Two filters in a row are one filter by the conjunction. *)
Lemma filter_fuse p q xs :
  List.filter q (List.filter p xs) = List.filter (fun x => p x && q x) xs.
Proof.
  induction xs as [|x xs IH]; simpl; [done|].
  destruct (p x); simpl; [destruct (q x)|]; simpl; by rewrite IH.
Qed.

Lemma filter_ext_elem_of p q xs :
  (forall x, x ∈ xs -> p x = q x) -> List.filter p xs = List.filter q xs.
Proof.
  intros H. apply filter_ext_in. intros x Hx. apply H, list_elem_of_In, Hx.
Qed.

Lemma filter_all p xs :
  (forall x, x ∈ xs -> p x = true) -> List.filter p xs = xs.
Proof.
  induction xs as [|x xs IH]; intros H; simpl; [done|].
  rewrite H by set_solver. rewrite IH by set_solver. done.
Qed.

Lemma filter_sublist_mono p q xs :
  (forall x, x ∈ xs -> p x = true -> q x = true) ->
  List.filter p xs `sublist_of` List.filter q xs.
Proof.
  induction xs as [|x xs IH]; intros H; simpl; [done|].
  destruct (p x) eqn:Hp.
  - rewrite H by set_solver. apply sublist_skip, IH. set_solver.
  - destruct (q x); [apply sublist_cons|]; apply IH; set_solver.
Qed.

Lemma filter_idem p xs : List.filter p (List.filter p xs) = List.filter p xs.
Proof. apply filter_all. intros x Hx. by apply filter_elem_of in Hx as [_ ?]. Qed.

End FilterFacts.

End ArrayProto.
Export ArrayProto.

#[export] Hint Resolve filter_sublist_of : directory.
#[export] Hint Rewrite @array_filter_pure @array_map_pure : js_simpl.
