(* ===== verification/JsSet.v ===== *)
(** [new Set(xs)] and [Array.from(set)], which app.jsx (lines 31-32)
    composes to list the distinct cities and companies.  A JavaScript
    [Set] keeps its entries in insertion order; [add] appends a value only
    when no entry is equal to it (SameValueZero, which on strings is
    equality).  [new Set(xs)] adds the values of [xs] in order, and
    [Array.from] lists the entries in order.  The main result is that the
    composition keeps exactly the first occurrence of every value: it
    equals [rev (nodup (rev xs))] with the Standard Library's [nodup]. *)

From S2P Require Import Prelude.

Module SetObj.

Section JsSet.
Context {A : Type} `{EqDecision A}.

(** The entries of a [Set], in insertion order. *)
Record JsSet := MkSet { set_entries : list A }.

(** [set.has(x)] *)
Definition set_has (s : JsSet) (x : A) : bool := bool_decide (x ∈ set_entries s).

(** [set.add(x)] *)
Definition set_add (s : JsSet) (x : A) : JsSet :=
  if set_has s x then s else MkSet (set_entries s ++ [x]).

(** [new Set(xs)]: an empty set, then [add] of every value in order. *)
Definition new_Set (xs : list A) : JsSet := fold_left set_add xs (MkSet []).

(** [Array.from(s)] *)
Definition Array_from (s : JsSet) : list A := set_entries s.

(** [Array.from(new Set(xs))] *)
Definition distinct (xs : list A) : list A := Array_from (new_Set xs).

(** The decision procedure the Standard Library's list functions take. *)
Definition dec : forall x y : A, {x = y} + {x <> y} := fun x y => decide (x = y).

(** ** Lemmas on [add] *)

Lemma set_add_NoDup s x : NoDup (set_entries s) -> NoDup (set_entries (set_add s x)).
Proof.
  unfold set_add, set_has. case_bool_decide; [done|]. simpl.
  intros Hnd. apply NoDup_app. repeat split; [done| |by apply NoDup_singleton].
  set_solver.
Qed.

Lemma set_add_elem_of s x y : y ∈ set_entries (set_add s x) <-> y ∈ set_entries s \/ y = x.
Proof. unfold set_add, set_has. case_bool_decide; simpl; set_solver. Qed.

(** [nodup] on a list with a suffix only depends on the suffix's
    elements and on its [nodup]. *)
Lemma nodup_app_suffix (l m1 m2 : list A) :
  nodup dec m1 = nodup dec m2 -> (forall y, In y m1 <-> In y m2) ->
  nodup dec (l ++ m1) = nodup dec (l ++ m2).
Proof.
  intros Hn Hin. induction l as [|x l IH]; simpl; [done|].
  rewrite IH. destruct (in_dec dec x (l ++ m1)) as [H1|H1],
    (in_dec dec x (l ++ m2)) as [H2|H2]; try done;
    rewrite in_app_iff in H1, H2; rewrite Hin in H1; tauto.
Qed.

(** The fold of [add] over [xs] from a set without repetitions. *)
Lemma fold_set_add_nodup xs s :
  NoDup (set_entries s) ->
  set_entries (fold_left set_add xs s) = rev (nodup dec (rev xs ++ rev (set_entries s))).
Proof.
  revert s. induction xs as [|x xs IH]; intros s Hnd; simpl.
  - rewrite nodup_fixed_point, rev_involutive; [done|].
    apply NoDup_rev, NoDup_ListNoDup, Hnd.
  - rewrite IH by (by apply set_add_NoDup). f_equal.
    rewrite <- app_assoc. simpl. unfold set_add, set_has. case_bool_decide as Hx.
    + apply nodup_app_suffix.
      * simpl. destruct (in_dec dec x (rev (set_entries s))) as [|Hn]; [done|].
        exfalso. apply Hn, in_rev. rewrite rev_involutive. by apply list_elem_of_In.
      * intros y. simpl. rewrite <- !in_rev. rewrite <- list_elem_of_In. set_solver.
    + simpl. by rewrite rev_app_distr.
Qed.

(** ** Properties of [Array.from(new Set(xs))] *)

(** It keeps the first occurrence of every value, in order: it equals the
    reverse of the Standard Library's [nodup] (which keeps last
    occurrences) on the reversed list. *)
Lemma distinct_rev_nodup xs : distinct xs = rev (nodup dec (rev xs)).
Proof.
  unfold distinct, Array_from, new_Set.
  rewrite fold_set_add_nodup by constructor. simpl. by rewrite app_nil_r.
Qed.

Lemma distinct_NoDup xs : NoDup (distinct xs).
Proof.
  rewrite distinct_rev_nodup. apply NoDup_ListNoDup, NoDup_rev, NoDup_nodup.
Qed.

Lemma distinct_elem_of xs x : x ∈ distinct xs <-> x ∈ xs.
Proof.
  rewrite distinct_rev_nodup, !list_elem_of_In, <- in_rev, nodup_In, <- in_rev. done.
Qed.

(** The fold only appends values of [xs], in their order. *)
Lemma fold_set_add_sublist xs s :
  set_entries (fold_left set_add xs s) `sublist_of` set_entries s ++ xs.
Proof.
  revert s. induction xs as [|x xs IH]; intros s; simpl; [by rewrite app_nil_r|].
  etrans; [apply IH|]. unfold set_add, set_has. case_bool_decide; simpl.
  - apply sublist_app; [done|]. by apply sublist_cons.
  - by rewrite <- app_assoc.
Qed.

Lemma distinct_sublist xs : distinct xs `sublist_of` xs.
Proof. apply (fold_set_add_sublist xs (MkSet [])). Qed.

Lemma distinct_count_occ xs x : x ∈ xs -> count_occ dec (distinct xs) x = 1.
Proof.
  intros Hx. apply (NoDup_count_occ' dec).
  - apply NoDup_ListNoDup, distinct_NoDup.
  - apply list_elem_of_In, distinct_elem_of, Hx.
Qed.

Lemma distinct_length xs : length (distinct xs) <= length xs.
Proof. apply sublist_length, distinct_sublist. Qed.

Lemma distinct_idem xs : distinct (distinct xs) = distinct xs.
Proof.
  rewrite !distinct_rev_nodup, rev_involutive, (nodup_fixed_point _ (NoDup_nodup _ _)).
  done.
Qed.

End JsSet.
End SetObj.
Export SetObj.
