(* ===== verification/User.v ===== *)
(** The shape of one fetched user record, as app.jsx and UserCard.jsx
    read it: [id], [name], [username], [email], [phone], [website], the
    nested [address] ([street], [city], [zipcode]) and [company] ([name]).
    The nested objects are optional: the spec leaves their absence open,
    and the code reads through them without a guard, so a read such as
    [u.address.city] on a record without [address] throws a [TypeError].
    [wf_user] is the condition under which no read throws; the pure
    accessors [city_of] and [company_of] are what the reads return then. *)

From S2P Require Import Prelude.
Local Open Scope string_scope.

Module Address.
Record t := mk { street : string; city : string; zipcode : string }.
End Address.

Module Company.
Record t := mk { name : string }.
End Company.

Module User.
Record t := mk {
  id : Z;
  name : string;
  username : string;
  email : string;
  address : option Address.t;
  phone : string;
  website : string;
  company : option Company.t
}.
End User.

#[export] Instance Address_eq_dec : EqDecision Address.t.
Proof. solve_decision. Defined.

#[export] Instance Company_eq_dec : EqDecision Company.t.
Proof. solve_decision. Defined.

#[export] Instance User_eq_dec : EqDecision User.t.
Proof. solve_decision. Defined.

Module UserRecord.

(** The engine's message for a property read on [undefined]. *)
Definition cannot_read (prop : string) : exn :=
  TypeError ("Cannot read properties of undefined (reading '" ++ prop ++ "')").

(** [o.prop] where [o] may be [undefined]. *)
Definition read_prop {T} (o : option T) (prop : string) (f : T -> string) : completion string :=
  match o with
  | Some v => Normal (f v)
  | None => Throw (cannot_read prop)
  end.

(** [u.address.city] *)
Definition read_city (u : User.t) : completion string :=
  read_prop (User.address u) "city" Address.city.

(** [u.address.street] *)
Definition read_street (u : User.t) : completion string :=
  read_prop (User.address u) "street" Address.street.

(** [u.address.zipcode] *)
Definition read_zipcode (u : User.t) : completion string :=
  read_prop (User.address u) "zipcode" Address.zipcode.

(** [u.company.name] *)
Definition read_company_name (u : User.t) : completion string :=
  read_prop (User.company u) "name" Company.name.

(** The nested objects are present. *)
Definition has_address (u : User.t) : bool :=
  match User.address u with Some _ => true | None => false end.

Definition has_company (u : User.t) : bool :=
  match User.company u with Some _ => true | None => false end.

(** A record whose nested objects are both present. *)
Definition wf_user (u : User.t) : bool := has_address u && has_company u.

(** Every record of the list is well-formed. *)
Definition all_wf (users : list User.t) : bool := forallb wf_user users.

(** What the reads return on a well-formed record. *)
Definition city_of (u : User.t) : string :=
  match User.address u with Some a => Address.city a | None => "" end.

Definition company_of (u : User.t) : string :=
  match User.company u with Some c => Company.name c | None => "" end.

Definition street_of (u : User.t) : string :=
  match User.address u with Some a => Address.street a | None => "" end.

Definition zipcode_of (u : User.t) : string :=
  match User.address u with Some a => Address.zipcode a | None => "" end.

(** Record ids are pairwise distinct (the spec's "unique id"). *)
Definition ids_unique (users : list User.t) : Prop := NoDup (map User.id users).

#[export] Instance ids_unique_dec users : Decision (ids_unique users).
Proof. unfold ids_unique. apply _. Defined.

(** Records in the shape of the fetched fixture, for concrete runs; the
    last two share a city with the first, and one lacks its address. *)
Module Fixture.
Definition leanne : User.t :=
  User.mk 1 "Leanne Graham" "Bret" "Sincere@april.biz"
    (Some (Address.mk "Kulas Light" "Gwenborough" "92998-3874"))
    "1-770-736-8031 x56442" "hildegard.org" (Some (Company.mk "Romaguera-Crona")).
Definition ervin : User.t :=
  User.mk 2 "Ervin Howell" "Antonette" "Shanna@melissa.tv"
    (Some (Address.mk "Victor Plains" "Wisokyburgh" "90566-7771"))
    "010-692-6593 x09125" "anastasia.net" (Some (Company.mk "Deckow-Crist")).
Definition clementine : User.t :=
  User.mk 3 "Clementine Bauch" "Samantha" "Nathan@yesenia.net"
    (Some (Address.mk "Douglas Extension" "Gwenborough" "59590-4157"))
    "1-463-123-4447" "ramiro.info" (Some (Company.mk "Romaguera-Jacobson")).
Definition no_address : User.t :=
  User.mk 11 "Moriah Stanton" "Moriah.Stanton" "Rey.Padberg@karina.biz" None
    "024-648-3804" "ambrose.net" (Some (Company.mk "Hoeger LLC")).
Definition sample : list User.t := [leanne; ervin; clementine].
End Fixture.

(** ** Reads on well-formed records *)

Lemma read_city_present u : has_address u = true -> read_city u = Normal (city_of u).
Proof. unfold has_address, read_city, city_of. by destruct (User.address u). Qed.

Lemma read_company_name_present u :
  has_company u = true -> read_company_name u = Normal (company_of u).
Proof. unfold has_company, read_company_name, company_of. by destruct (User.company u). Qed.

Lemma read_street_present u : has_address u = true -> read_street u = Normal (street_of u).
Proof. unfold has_address, read_street, street_of. by destruct (User.address u). Qed.

Lemma read_zipcode_present u : has_address u = true -> read_zipcode u = Normal (zipcode_of u).
Proof. unfold has_address, read_zipcode, zipcode_of. by destruct (User.address u). Qed.

Lemma wf_user_has_address u : wf_user u = true -> has_address u = true.
Proof. unfold wf_user. rewrite andb_true_iff. tauto. Qed.

Lemma wf_user_has_company u : wf_user u = true -> has_company u = true.
Proof. unfold wf_user. rewrite andb_true_iff. tauto. Qed.

(** [read_city] returns normally exactly on records with an address. *)
Lemma read_city_Normal u x : read_city u = Normal x -> has_address u = true /\ city_of u = x.
Proof.
  unfold read_city, read_prop, has_address, city_of.
  destruct (User.address u); [intros [= <-]; done | discriminate].
Qed.

Lemma all_wf_elem_of users u : all_wf users = true -> u ∈ users -> wf_user u = true.
Proof.
  unfold all_wf. rewrite forallb_forall, list_elem_of_In. intros H Hu. by apply H.
Qed.

(** A read throws exactly when its object is absent. *)
Lemma read_city_throw u :
  User.address u = None -> read_city u = Throw (cannot_read "city").
Proof. unfold read_city. by intros ->. Qed.

Lemma read_company_name_throw u :
  User.company u = None -> read_company_name u = Throw (cannot_read "name").
Proof. unfold read_company_name. by intros ->. Qed.


Lemma read_company_name_Normal u x :
  read_company_name u = Normal x -> has_company u = true /\ company_of u = x.
Proof.
  unfold read_company_name, read_prop, has_company, company_of.
  destruct (User.company u); [intros [= <-]; done | discriminate].
Qed.

End UserRecord.
Export UserRecord.


#[export] Hint Resolve read_city_present read_company_name_present all_wf_elem_of
  read_street_present read_zipcode_present
  wf_user_has_address wf_user_has_company : directory.
