(* ===== verification/Filter.v ===== *)
(** The derived data of [App] (app.jsx lines 30-40): the distinct cities
    and companies of the loaded users, and [filteredUsers], three chained
    [Array.prototype.filter] calls (search on name or username, then city,
    then company).  Each callback is translated as the code writes it,
    including its property reads, which throw on a record without
    [address] or [company].  [criteria_match] is the pure specification of
    the three filters; [filteredUsers_refines] shows that the pipeline
    computes [List.filter criteria_match] on well-formed records, and the
    remaining theorems give its contract: membership, idempotence,
    the empty criteria, case-insensitivity, narrowing as the search text
    grows, and the exceptions. *)

From S2P Require Import Prelude JsString JsArray JsSet User.
Local Open Scope string_scope.

Module Directory.

(** ** Derived option lists (lines 31-32) *)

(** [Array.from(new Set(users.map(u => u.address.city)))] *)
Definition cities (users : list User.t) : completion (list string) :=
  cs <- array_map read_city users ;; Normal (distinct cs).

(** [Array.from(new Set(users.map(u => u.company.name)))] *)
Definition companies (users : list User.t) : completion (list string) :=
  cs <- array_map read_company_name users ;; Normal (distinct cs).

(** ** The three filter callbacks (lines 36-40) *)

(** [u.name.toLowerCase().includes(search.toLowerCase()) ||
     u.username.toLowerCase().includes(search.toLowerCase())] *)
Definition search_cb (search : string) (u : User.t) : bool :=
  includes (toLowerCase (User.name u)) (toLowerCase search) ||
  includes (toLowerCase (User.username u)) (toLowerCase search).

(** [u => (cityFilter ? u.address.city === cityFilter : true)] *)
Definition city_cb (cityFilter : string) (u : User.t) : completion bool :=
  if truthy_str cityFilter
  then c <- read_city u ;; Normal (String.eqb c cityFilter)
  else Normal true.

(** [u => (companyFilter ? u.company.name === companyFilter : true)] *)
Definition company_cb (companyFilter : string) (u : User.t) : completion bool :=
  if truthy_str companyFilter
  then c <- read_company_name u ;; Normal (String.eqb c companyFilter)
  else Normal true.

(** [users.filter(search).filter(city).filter(company)] *)
Definition filteredUsers (search cityFilter companyFilter : string)
    (users : list User.t) : completion (list User.t) :=
  l1 <- array_filter (fun u => Normal (search_cb search u)) users ;;
  l2 <- array_filter (city_cb cityFilter) l1 ;;
  array_filter (company_cb companyFilter) l2.

(** ** Specification *)

(** Substring search of the Standard Library: [needle] occurs in [hay]. *)
Definition contains (hay needle : string) : bool :=
  match String.index 0 needle hay with Some _ => true | None => false end.

(** The spec's filter, written independently of the callbacks: the search
    text is a case-insensitive substring of the name or the username, and
    the city and the company equal the selected ones when one is
    selected (the empty value selects all). *)
Definition criteria_match (search cityFilter companyFilter : string) (u : User.t) : bool :=
  (contains (toLowerCase (User.name u)) (toLowerCase search) ||
   contains (toLowerCase (User.username u)) (toLowerCase search)) &&
  (String.eqb cityFilter "" || String.eqb (city_of u) cityFilter) &&
  (String.eqb companyFilter "" || String.eqb (company_of u) companyFilter).

(** The same, as a proposition over substrings. *)
Definition Matches (search cityFilter companyFilter : string) (u : User.t) : Prop :=
  ((exists p q, toLowerCase (User.name u) = p ++ toLowerCase search ++ q) \/
   (exists p q, toLowerCase (User.username u) = p ++ toLowerCase search ++ q)) /\
  (cityFilter = "" \/ city_of u = cityFilter) /\
  (companyFilter = "" \/ company_of u = companyFilter).

(** What [Array.from(new Set(users.map(f)))] promises of its result [cs]:
    each value some user has, once, in an order taken from the users. *)
Definition distinct_values (f : User.t -> string) (users : list User.t) (cs : list string) : Prop :=
  NoDup cs /\ cs `sublist_of` map f users /\ length cs <= length users /\
  (forall x, x ∈ cs <-> exists u, u ∈ users /\ f u = x) /\
  (forall u, u ∈ users -> count_occ dec cs (f u) = 1).

(** Two search texts are equivalent when they lower-case to the same
    string. *)
Definition ci_equiv (s1 s2 : string) : Prop := toLowerCase s1 = toLowerCase s2.

(** ** Lemmas *)

#[export] Instance ci_equiv_Equivalence : Equivalence ci_equiv.
Proof. unfold ci_equiv. split; repeat intro; congruence. Qed.

#[export] Instance search_cb_proper : Proper (ci_equiv ==> eq ==> eq) search_cb.
Proof. intros s1 s2 Hs u ? <-. unfold search_cb. by rewrite Hs. Qed.

#[export] Instance filteredUsers_proper :
  Proper (ci_equiv ==> eq ==> eq ==> eq ==> eq) filteredUsers.
Proof.
  intros s1 s2 Hs c ? <- k ? <- users ? <-. unfold filteredUsers.
  rewrite (array_filter_ext (fun u => Normal (search_cb s1 u)) (fun u => Normal (search_cb s2 u)));
    [done|]. intros u _. by rewrite Hs.
Qed.

Lemma city_cb_present c u : has_address u = true ->
  city_cb c u = Normal (negb (truthy_str c) || String.eqb (city_of u) c).
Proof. intros Hu. unfold city_cb. rewrite read_city_present by done. by destruct (truthy_str c). Qed.

Lemma company_cb_present c u : has_company u = true ->
  company_cb c u = Normal (negb (truthy_str c) || String.eqb (company_of u) c).
Proof.
  intros Hu. unfold company_cb. rewrite read_company_name_present by done.
  by destruct (truthy_str c).
Qed.

Lemma contains_includes hay needle : contains hay needle = includes hay needle.
Proof. unfold contains. by rewrite includes_index. Qed.

Lemma criteria_match_Matches s c k u : criteria_match s c k u = true <-> Matches s c k u.
Proof.
  unfold criteria_match, Matches. rewrite !contains_includes.
  rewrite !andb_true_iff, !orb_true_iff, !includes_spec, !String.eqb_eq. tauto.
Qed.

(** The spec's predicate agrees with the three callbacks' conditions. *)
Lemma criteria_match_code s c k u :
  criteria_match s c k u =
    search_cb s u && (negb (truthy_str c) || String.eqb (city_of u) c) &&
    (negb (truthy_str k) || String.eqb (company_of u) k).
Proof. unfold criteria_match, search_cb. by rewrite !contains_includes, !negb_truthy_str. Qed.
(** The search callback only sees the lower-cased search text. *)
Lemma search_cb_toLowerCase s u : search_cb (toLowerCase s) u = search_cb s u.
Proof. unfold search_cb. by rewrite toLowerCase_idem. Qed.

Lemma search_cb_app s t u : search_cb (s ++ t) u = true -> search_cb s u = true.
Proof.
  unfold search_cb. rewrite toLowerCase_app, !orb_true_iff.
  intros [H|H]; [left|right]; by eapply includes_app_needle.
Qed.

Lemma search_cb_empty u : search_cb "" u = true.
Proof. unfold search_cb. simpl. by rewrite includes_empty. Qed.

(** A normal result comes from three normal stages. *)
Lemma filteredUsers_Normal_stages s c k users r :
  filteredUsers s c k users = Normal r ->
  exists l1 l2,
    array_filter (fun u => Normal (search_cb s u)) users = Normal l1 /\
    array_filter (city_cb c) l1 = Normal l2 /\
    array_filter (company_cb k) l2 = Normal r.
Proof.
  unfold filteredUsers.
  destruct (array_filter _ users) as [l1|] eqn:H1; [|discriminate]. simpl.
  destruct (array_filter (city_cb c) l1) as [l2|] eqn:H2; [|discriminate]. simpl.
  intros H. eauto.
Qed.

(** What a callback returning [true] says about the record. *)
Lemma city_cb_true c u : city_cb c u = Normal true <-> c = "" \/ city_of u = c.
Proof.
  unfold city_cb, read_city, read_prop, city_of.
  destruct (truthy_str c) eqn:Hc; [rewrite truthy_str_true in Hc | rewrite truthy_str_false in Hc].
  - destruct (User.address u); simpl.
    + rewrite Normal_inj_iff, String.eqb_eq. split; [auto | intros [->|]; congruence].
    + split; [discriminate | intros [->|<-]; congruence].
  - tauto.
Qed.

Lemma company_cb_true c u : company_cb c u = Normal true <-> c = "" \/ company_of u = c.
Proof.
  unfold company_cb, read_company_name, read_prop, company_of.
  destruct (truthy_str c) eqn:Hc; [rewrite truthy_str_true in Hc | rewrite truthy_str_false in Hc].
  - destruct (User.company u); simpl.
    + rewrite Normal_inj_iff, String.eqb_eq. split; [auto | intros [->|]; congruence].
    + split; [discriminate | intros [->|<-]; congruence].
  - tauto.
Qed.

Lemma city_cb_empty u : city_cb "" u = Normal true.
Proof. done. Qed.

Lemma company_cb_empty u : company_cb "" u = Normal true.
Proof. done. Qed.

(** On records with both nested objects no callback throws, whatever the
    search text and the selections. *)
Lemma filteredUsers_total s c k users :
  all_wf users = true -> exists r, filteredUsers s c k users = Normal r.
Proof.
  intros Hwf. unfold filteredUsers. rewrite array_filter_pure. simpl.
  destruct (array_filter_total (city_cb c) (List.filter (search_cb s) users)) as [l2 H2].
  { intros u [Hu _]%filter_elem_of. rewrite city_cb_present; [done | eauto with directory]. }
  rewrite H2. simpl.
  destruct (array_filter_total (company_cb k) l2) as [r H3].
  { intros u Hu. apply (array_filter_Normal_elem_of _ _ _ _ H2) in Hu as [[Hu _]%filter_elem_of _].
    rewrite company_cb_present; [done | eauto with directory]. }
  rewrite H3. by eexists.
Qed.

(** [users.map(u => u.address.city)] throws as soon as one user lacks
    its [address]: every such read throws the same [TypeError]. *)
Lemma array_map_read_city_missing users u :
  u ∈ users -> User.address u = None -> array_map read_city users = Throw (cannot_read "city").
Proof.
  induction users as [|x xs IH]; [by rewrite elem_of_nil|].
  rewrite elem_of_cons. intros Hu Ha. simpl.
  destruct (User.address x) as [a|] eqn:Hx.
  - rewrite read_city_present by (unfold has_address; by rewrite Hx). simpl.
    destruct Hu as [->|Hu]; [congruence|]. by rewrite IH.
  - by rewrite read_city_throw.
Qed.

(** A normal [users.map(u => u.address.city)] read every address. *)
Lemma array_map_read_city_Normal users l :
  array_map read_city users = Normal l ->
  l = map city_of users /\ forallb has_address users = true.
Proof.
  intros Hl%array_map_Normal. induction Hl as [|u x us xs Hx _ IH]; [done|].
  apply read_city_Normal in Hx as [Hu <-]. simpl. rewrite Hu. by destruct IH as [-> ->].
Qed.

Lemma cities_Normal users cs :
  cities users = Normal cs ->
  cs = distinct (map city_of users) /\ forallb has_address users = true.
Proof.
  unfold cities. destruct (array_map read_city users) as [l|] eqn:Hl; [|discriminate].
  simpl. intros [= <-]. by apply array_map_read_city_Normal in Hl as [-> ?].
Qed.

Lemma search_cb_spec s u :
  search_cb s u = true <->
  (exists p q, toLowerCase (User.name u) = p ++ toLowerCase s ++ q) \/
  (exists p q, toLowerCase (User.username u) = p ++ toLowerCase s ++ q).
Proof. unfold search_cb. by rewrite orb_true_iff, !includes_spec. Qed.

(** The members of a normal result are the members of the input that
    pass the three callbacks. *)
Lemma filteredUsers_Normal_iff s c k users r u :
  filteredUsers s c k users = Normal r ->
  u ∈ r <-> u ∈ users /\ search_cb s u = true /\
            city_cb c u = Normal true /\ company_cb k u = Normal true.
Proof.
  intros (l1 & l2 & H1 & H2 & H3)%filteredUsers_Normal_stages.
  rewrite (array_filter_Normal_elem_of _ _ _ _ H3), (array_filter_Normal_elem_of _ _ _ _ H2),
    (array_filter_Normal_elem_of _ _ _ _ H1), Normal_inj_iff. tauto.
Qed.

Lemma filteredUsers_Normal_sublist s c k users r :
  filteredUsers s c k users = Normal r -> r `sublist_of` users.
Proof.
  intros (l1 & l2 & H1 & H2 & H3)%filteredUsers_Normal_stages.
  apply array_filter_Normal_sublist in H1, H2, H3. by etrans; [|etrans].
Qed.

Lemma array_map_read_company_name_Normal users l :
  array_map read_company_name users = Normal l ->
  l = map company_of users /\ forallb has_company users = true.
Proof.
  intros Hl%array_map_Normal. induction Hl as [|u x us xs Hx _ IH]; [done|].
  apply read_company_name_Normal in Hx as [Hu <-]. simpl. rewrite Hu. by destruct IH as [-> ->].
Qed.

Lemma companies_Normal users cs :
  companies users = Normal cs ->
  cs = distinct (map company_of users) /\ forallb has_company users = true.
Proof.
  unfold companies. destruct (array_map read_company_name users) as [l|] eqn:Hl; [|discriminate].
  simpl. intros [= <-]. by apply array_map_read_company_name_Normal in Hl as [-> ?].
Qed.

(** ** Theorems *)

(** On well-formed records the three callbacks are pure: the pipeline is
    one [List.filter] by the conjunction of their conditions. *)
Lemma filteredUsers_fused s c k users :
  all_wf users = true ->
  filteredUsers s c k users =
    Normal (List.filter (fun u => search_cb s u && (negb (truthy_str c) || String.eqb (city_of u) c) &&
                                  (negb (truthy_str k) || String.eqb (company_of u) k)) users).
Proof.
  intros Hwf. unfold filteredUsers. rewrite array_filter_pure. simpl.
  rewrite (array_filter_agree _ (fun u => negb (truthy_str c) || String.eqb (city_of u) c)).
  2:{ intros u [Hu _]%filter_elem_of. apply city_cb_present. eauto with directory. }
  simpl.
  rewrite (array_filter_agree _ (fun u => negb (truthy_str k) || String.eqb (company_of u) k)).
  2:{ intros u [[Hu _]%filter_elem_of _]%filter_elem_of.
      apply company_cb_present. eauto with directory. }
  rewrite !filter_fuse. f_equal. apply filter_ext. intros u. by rewrite andb_assoc.
Qed.

(** C1: On well-formed records the pipeline of three [filter] calls computes
    one [List.filter] by the specification's predicate. *)
Theorem filteredUsers_refines s c k users :
  all_wf users = true ->
  filteredUsers s c k users = Normal (List.filter (criteria_match s c k) users).
Proof.
  intros Hwf. rewrite filteredUsers_fused by done. f_equal.
  apply filter_ext. intros u. by rewrite criteria_match_code.
Qed.
(** C2: The contract of the filter: a user is shown iff it is loaded and its
    name or username contains the search text ignoring case, and its city
    and company are the selected ones when one is selected. *)
Theorem filteredUsers_elem_of s c k users r u :
  filteredUsers s c k users = Normal r -> u ∈ r <-> u ∈ users /\ Matches s c k u.
Proof.
  intros H. rewrite (filteredUsers_Normal_iff _ _ _ _ _ _ H), city_cb_true,
    company_cb_true, search_cb_spec. unfold Matches. tauto.
Qed.

(** Filtering is idempotent. *)
Theorem filteredUsers_idem s c k users r :
  filteredUsers s c k users = Normal r -> filteredUsers s c k r = Normal r.
Proof.
  intros H. pose proof (fun u => filteredUsers_Normal_iff _ _ _ _ _ u H) as Hr.
  unfold filteredUsers.
  rewrite array_filter_all_true by (intros u Hu; apply Hr in Hu as (_ & -> & _); done).
  simpl. rewrite array_filter_all_true by (intros u Hu; by apply Hr in Hu as (_ & _ & ? & _)).
  simpl. apply array_filter_all_true. intros u Hu. by apply Hr in Hu as (_ & _ & _ & ?).
Qed.

(** C20: Empty search text and no selection show every loaded user, in order,
    whatever the records hold. *)
Theorem filteredUsers_no_criteria users : filteredUsers "" "" "" users = Normal users.
Proof.
  unfold filteredUsers.
  rewrite array_filter_all_true by (intros u _; by rewrite search_cb_empty). simpl.
  rewrite array_filter_all_true by done. simpl.
  by apply array_filter_all_true.
Qed.

(** C7: The search ignores case: two search texts that lower-case to the same
    string give the same outcome. *)
Theorem filteredUsers_case_insensitive s1 s2 c k users :
  toLowerCase s1 = toLowerCase s2 ->
  filteredUsers s1 c k users = filteredUsers s2 c k users.
Proof. intros Hs. change (ci_equiv s1 s2) in Hs. by rewrite Hs. Qed.

(** C29: Typing more characters only narrows the result. *)
Theorem filteredUsers_narrowing s t c k users r1 r2 :
  all_wf users = true ->
  filteredUsers (s ++ t) c k users = Normal r1 ->
  filteredUsers s c k users = Normal r2 ->
  r1 `sublist_of` r2.
Proof.
  intros Hwf. rewrite !filteredUsers_fused by done. intros [= <-] [= <-].
  apply filter_sublist_mono. intros u _.
  rewrite !andb_true_iff. intros [[Hs ?] ?]. eauto using search_cb_app.
Qed.

(** C31: With no city and no company selected no property of [address] or
    [company] is read: the filter cannot throw, whatever the records. *)
Theorem filteredUsers_no_selection_total s users :
  filteredUsers s "" "" users = Normal (List.filter (search_cb s) users).
Proof.
  unfold filteredUsers. rewrite array_filter_pure. simpl.
  rewrite array_filter_all_true by done. simpl. by apply array_filter_all_true.
Qed.

(** C32: With a city selected, the first record that passes the search and
    has no [address] makes the filter throw the engine's [TypeError]. *)
Theorem filteredUsers_city_throw s c k pre u post :
  all_wf pre = true -> search_cb s u = true -> User.address u = None -> c <> "" ->
  filteredUsers s c k (pre ++ u :: post) = Throw (cannot_read "city").
Proof.
  intros Hpre Hs Hu Hc. unfold filteredUsers. rewrite array_filter_pure.
  rewrite List.filter_app. simpl. rewrite Hs. simpl.
  rewrite (array_filter_throw _ _ _ _ (cannot_read "city")); [done| |].
  - intros v [Hv _]%filter_elem_of. rewrite city_cb_present; eauto with directory.
  - unfold city_cb. apply truthy_str_true in Hc. rewrite Hc. by rewrite read_city_throw.
Qed.

(** The distinct values of a field, as [Set] and [Array.from] compute
    them, have the promised shape. *)
Lemma distinct_map_values f users : distinct_values f users (distinct (map f users)).
Proof.
  split_and!.
  - apply distinct_NoDup.
  - apply distinct_sublist.
  - rewrite <- (length_map f users). apply distinct_length.
  - intros x. rewrite distinct_elem_of, elem_of_map. naive_solver.
  - intros u Hu. apply distinct_count_occ, elem_of_map. eauto.
Qed.

(** C6: The two option lists hold each city, and each company, of the
    loaded users exactly once: no duplicates, nothing else, no more
    entries than users. *)
Theorem option_lists_spec users cs ks :
  (cities users = Normal cs -> distinct_values city_of users cs) /\
  (companies users = Normal ks -> distinct_values company_of users ks).
Proof.
  split.
  - intros [-> _]%cities_Normal. apply distinct_map_values.
  - intros [-> _]%companies_Normal. apply distinct_map_values.
Qed.
(** C21: The city options are the cities in the order of their first
    occurrence among the users (JavaScript's [Set] keeps insertion order;
    the Standard Library's [nodup] keeps last occurrences, hence the two
    reversals). *)
Theorem cities_first_seen users cs :
  cities users = Normal cs -> cs = rev (nodup dec (rev (map city_of users))).
Proof. intros [-> _]%cities_Normal. apply distinct_rev_nodup. Qed.

(** The first user without [address] makes the derivation of the city
    options throw. *)
Theorem cities_throw pre u post :
  forallb has_address pre = true -> User.address u = None ->
  cities (pre ++ u :: post) = Throw (cannot_read "city").
Proof.
  intros Hpre Hu. unfold cities.
  rewrite (array_map_throw _ _ _ _ (cannot_read "city")); [done| |by apply read_city_throw].
  intros v Hv. rewrite read_city_present; [done|].
  apply forallb_forall with (x := v) in Hpre; [done|]. by apply list_elem_of_In.
Qed.

(** C30: A city offered as an option always has a user: selecting it, with
    an empty search and no company, shows at least one card. *)
Theorem city_option_nonempty users cs c :
  cities users = Normal cs -> c ∈ cs ->
  exists r, filteredUsers "" c "" users = Normal r /\ r <> [].
Proof.
  intros Hcs Hc. apply cities_Normal in Hcs as [-> Haddr].
  apply distinct_elem_of, elem_of_map in Hc as (u & -> & Hu).
  unfold filteredUsers. rewrite array_filter_all_true by (intros v _; by rewrite search_cb_empty).
  simpl. rewrite (array_filter_agree _ (fun v => negb (truthy_str (city_of u)) ||
                                                 String.eqb (city_of v) (city_of u))).
  2:{ intros v Hv. apply city_cb_present.
      apply forallb_forall with (x := v) in Haddr; [done|]. by apply list_elem_of_In. }
  simpl. rewrite array_filter_all_true by done.
  eexists; split; [done|]. intros Hnil.
  assert (u ∈ List.filter (fun v => negb (truthy_str (city_of u)) ||
                                    String.eqb (city_of v) (city_of u)) users) as Hin.
  { apply filter_elem_of. split; [done|]. by rewrite String.eqb_refl, orb_true_r. }
  rewrite Hnil in Hin. set_solver.
Qed.

(** ** Concrete runs on the fixture *)

Import Fixture.

Lemma filteredUsers_refines_witness :
  all_wf sample = true /\
  filteredUsers "ette" "" "" sample = Normal (List.filter (criteria_match "ette" "" "") sample).
Proof. split; [reflexivity | apply filteredUsers_refines; reflexivity]. Defined.

Lemma filteredUsers_elem_of_witness :
  filteredUsers "ETTE" "" "" sample = Normal [ervin] /\
  (ervin ∈ [ervin] <-> ervin ∈ sample /\ Matches "ETTE" "" "" ervin).
Proof.
  split; [vm_compute; reflexivity|].
  apply (filteredUsers_elem_of "ETTE" "" "" sample). vm_compute; reflexivity.
Defined.

Lemma filteredUsers_idem_witness :
  filteredUsers "an" "Gwenborough" "" sample = Normal [leanne; clementine] /\
  filteredUsers "an" "Gwenborough" "" [leanne; clementine] = Normal [leanne; clementine].
Proof.
  split; [vm_compute; reflexivity|].
  apply (filteredUsers_idem _ _ _ sample). vm_compute; reflexivity.
Defined.

Lemma filteredUsers_case_insensitive_witness :
  toLowerCase "MORIAH" = toLowerCase "moriah" /\
  filteredUsers "MORIAH" "" "" (sample ++ [no_address]) =
  filteredUsers "moriah" "" "" (sample ++ [no_address]).
Proof. split; [reflexivity | apply filteredUsers_case_insensitive; reflexivity]. Defined.

Lemma filteredUsers_narrowing_witness :
  all_wf sample = true /\
  filteredUsers ("e" ++ "tte") "" "" sample = Normal [ervin] /\
  filteredUsers "e" "" "" sample = Normal sample /\
  [ervin] `sublist_of` sample.
Proof.
  split_and!; [reflexivity | vm_compute; reflexivity | vm_compute; reflexivity |].
  apply (filteredUsers_narrowing "e" "tte" "" "" sample); vm_compute; reflexivity.
Defined.

Lemma filteredUsers_city_throw_witness :
  all_wf [leanne] = true /\ search_cb "" no_address = true /\
  User.address no_address = None /\ "Gwenborough" <> "" /\
  filteredUsers "" "Gwenborough" "" ([leanne] ++ no_address :: [ervin]) =
    Throw (cannot_read "city").
Proof.
  split_and!; [reflexivity | reflexivity | reflexivity | discriminate |].
  apply filteredUsers_city_throw; [reflexivity | reflexivity | reflexivity | discriminate].
Defined.

Lemma option_lists_spec_witness :
  cities sample = Normal ["Gwenborough"; "Wisokyburgh"] /\
  companies sample = Normal ["Romaguera-Crona"; "Deckow-Crist"; "Romaguera-Jacobson"] /\
  distinct_values city_of sample ["Gwenborough"; "Wisokyburgh"] /\
  distinct_values company_of sample ["Romaguera-Crona"; "Deckow-Crist"; "Romaguera-Jacobson"].
Proof.
  assert (cities sample = Normal ["Gwenborough"; "Wisokyburgh"]) as Hc by (vm_compute; reflexivity).
  assert (companies sample = Normal ["Romaguera-Crona"; "Deckow-Crist"; "Romaguera-Jacobson"])
    as Hk by (vm_compute; reflexivity).
  split_and!; [exact Hc | exact Hk |
    exact (proj1 (option_lists_spec sample _ [] ) Hc) | exact (proj2 (option_lists_spec sample [] _) Hk)].
Defined.
Lemma cities_first_seen_witness :
  cities sample = Normal ["Gwenborough"; "Wisokyburgh"] /\
  ["Gwenborough"; "Wisokyburgh"] = rev (nodup dec (rev (map city_of sample))).
Proof.
  split; [vm_compute; reflexivity|].
  apply (cities_first_seen sample). vm_compute; reflexivity.
Defined.

Lemma cities_throw_witness :
  forallb has_address [leanne] = true /\ User.address no_address = None /\
  cities ([leanne] ++ no_address :: [ervin]) = Throw (cannot_read "city").
Proof. split_and!; [reflexivity | reflexivity | apply cities_throw; reflexivity]. Defined.

Lemma city_option_nonempty_witness :
  cities sample = Normal ["Gwenborough"; "Wisokyburgh"] /\
  "Wisokyburgh" ∈ ["Gwenborough"; "Wisokyburgh"] /\
  exists r, filteredUsers "" "Wisokyburgh" "" sample = Normal r /\ r <> [].
Proof.
  split_and!; [vm_compute; reflexivity | set_solver |].
  apply (city_option_nonempty sample ["Gwenborough"; "Wisokyburgh"]);
    [vm_compute; reflexivity | set_solver].
Defined.

End Directory.
Export Directory.
