(* ===== verification/UserCard.v ===== *)
(** The [UserCard] component (src/src/components/UserCard.jsx): its one
    piece of state [showMore] (initially [false], flipped by the button's
    functional update [prev => !prev]), its render, which reads
    [user.company.name] and [user.address.city] always and
    [user.address.street] and [user.address.zipcode] when expanded, and
    the store of card states that the parent's [key={user.id}] gives: one
    [showMore] per mounted key, kept while the key stays in the list,
    created collapsed when a key appears, dropped when it disappears. *)

From stdpp Require Import gmap.
From S2P Require Import Prelude User.
Local Open Scope string_scope.

Module Card.

(** ** State and transitions (lines 4 and 16) *)

(** [useState(false)] *)
Definition init_showMore : bool := false.

(** [setShowMore(prev => !prev)] *)
Definition toggle (showMore : bool) : bool := negb showMore.

(** The spec's view of the card: a two-state machine. *)
Inductive Mode := Collapsed | Expanded.

Definition mode_of (showMore : bool) : Mode := if showMore then Expanded else Collapsed.

(** One activation of the toggle button. *)
Inductive card_step : bool -> bool -> Prop :=
  | press_toggle b : card_step b (toggle b).

(** ** Render (lines 7-28) *)

(** The expanded block: phone, website, and "street, zipcode". *)
Record Details := MkDetails {
  d_phone : string;
  d_website : string;
  d_address : string
}.

(** The text the card shows, in document order. *)
Record CardView := MkCardView {
  cv_name : string;
  cv_handle : string;
  cv_email : string;
  cv_company : string;
  cv_city : string;
  cv_button : string;
  cv_details : option Details
}.

(** [{showMore && (<div>...</div>)}] *)
Definition render_details (u : User.t) (showMore : bool) : completion (option Details) :=
  if showMore then
    street <- read_street u ;;
    zip <- read_zipcode u ;;
    Normal (Some (MkDetails (User.phone u) (User.website u) (street ++ ", " ++ zip)))
  else Normal None.

(** The card's JSX, children evaluated in document order. *)
Definition render_card (u : User.t) (showMore : bool) : completion CardView :=
  comp <- read_company_name u ;;
  city <- read_city u ;;
  details <- render_details u showMore ;;
  Normal (MkCardView (User.name u) ("@" ++ User.username u) (User.email u) comp city
            (if showMore then "Hide Details" else "View More") details).

(** ** The interface the parent relies on *)

(** What [App] needs of a card component: the initial state of a mounted
    card, the effect of its button, its render, and the laws [App]'s
    theorems use.  [user_card] below is the implementation. *)
Class CardComponent := {
  card_init : bool;
  card_toggle : bool -> bool;
  card_render : User.t -> bool -> completion CardView;
  card_toggle_negb : forall b, card_toggle b = negb b;
  card_render_wf : forall u b, wf_user u = true -> is_normal (card_render u b) = true;
  card_render_details : forall u b v,
    card_render u b = Normal v -> is_Some (cv_details v) <-> b = true
}.

(** ** The keyed store of card states *)

(** [showMore] of every mounted card, by key. *)
Abbreviation CardStore := (gmap Z bool).

Section Store.
Context `{CardComponent}.

(** The children [filteredUsers.map(user => <UserCard key={user.id} .../>)]
    are rendered with keys [ks]: a key already mounted keeps its state, a
    new key mounts with the card's initial state, a key no longer listed
    is unmounted.  This is React's keyed reconciliation for unique keys;
    with a repeated key React keeps one state per card instance, which a
    store keyed by [user.id] does not represent. *)
Definition reconcile (old : CardStore) (ks : list Z) : CardStore :=
  foldr (fun k acc => <[k := default card_init (old !! k)]> acc) ∅ ks.

(** A click on the button of the card with key [k]. *)
Definition toggle_card (k : Z) (store : CardStore) : CardStore := alter card_toggle k store.

Lemma reconcile_lookup old ks k :
  reconcile old ks !! k =
    if bool_decide (k ∈ ks) then Some (default card_init (old !! k)) else None.
Proof.
  induction ks as [|k' ks IH]; simpl; [by rewrite lookup_empty|].
  rewrite lookup_insert, IH. repeat case_decide; case_bool_decide; set_solver.
Qed.

Lemma toggle_card_lookup k k' store :
  toggle_card k store !! k' =
    if decide (k = k') then card_toggle <$> store !! k' else store !! k'.
Proof. unfold toggle_card. rewrite lookup_alter. case_decide; subst; done. Qed.

End Store.

(** ** Lemmas on the card *)

Lemma toggle_involutive b : toggle (toggle b) = b.
Proof. by destruct b. Qed.

Lemma render_card_details_Normal u b v :
  render_card u b = Normal v -> is_Some (cv_details v) <-> b = true.
Proof.
  unfold render_card, render_details.
  destruct (read_company_name u); [|discriminate]. simpl.
  destruct (read_city u); [|discriminate]. simpl.
  destruct b; simpl.
  - destruct (read_street u); [|discriminate]. simpl.
    destruct (read_zipcode u); [|discriminate]. simpl.
    intros [= <-]. simpl. split; [done | eauto].
  - intros [= <-]. simpl. split; [intros []; discriminate | discriminate].
Qed.

Lemma render_card_wf u b : wf_user u = true -> is_normal (render_card u b) = true.
Proof.
  intros Hwf. unfold render_card, render_details.
  rewrite read_company_name_present, read_city_present by eauto with directory. simpl.
  destruct b; [|done].
  by rewrite read_street_present, read_zipcode_present by eauto with directory.
Qed.

(** [UserCard] implements the interface. *)
#[export] Instance user_card : CardComponent := {|
  card_init := init_showMore;
  card_toggle := toggle;
  card_render := render_card;
  card_toggle_negb := fun b => eq_refl;
  card_render_wf := render_card_wf;
  card_render_details := render_card_details_Normal
|}.

(** ** Theorems *)

(** C8: The render of a card whose nested objects are present: the always
    visible fields, the button label, and the details exactly when the
    card is expanded. *)
Theorem render_card_spec u showMore :
  has_address u = true -> has_company u = true ->
  render_card u showMore =
    Normal (MkCardView (User.name u) ("@" ++ User.username u) (User.email u)
              (company_of u) (city_of u)
              (if showMore then "Hide Details" else "View More")
              (if showMore
               then Some (MkDetails (User.phone u) (User.website u)
                            (street_of u ++ ", " ++ zipcode_of u))
               else None)).
Proof.
  intros Ha Hc. unfold render_card, render_details.
  rewrite read_company_name_present, read_city_present by done. simpl.
  destruct showMore; [|done]. by rewrite read_street_present, read_zipcode_present.
Qed.

(** C33: A card whose record has no [company] throws on [user.company.name],
    the first nested read, collapsed or expanded; one with a company but
    no [address] throws on [user.address.city]. *)
Theorem render_card_throw u showMore :
  (User.company u = None -> render_card u showMore = Throw (cannot_read "name")) /\
  (has_company u = true -> User.address u = None ->
   render_card u showMore = Throw (cannot_read "city")).
Proof.
  unfold render_card. split.
  - intros Hc. by rewrite read_company_name_throw.
  - intros Hc Ha. rewrite read_company_name_present by done. simpl.
    by rewrite read_city_throw.
Qed.

(** The card is a two-state machine: each toggle switches the mode, two
    toggles return to the start, and from the initial state the card is
    collapsed. *)
Theorem card_step_alternates b b' :
  card_step b b' -> mode_of b' <> mode_of b /\ (forall b'', card_step b' b'' -> b'' = b).
Proof.
  intros Hs. inversion Hs as [b0]; subst. split.
  - by destruct b.
  - intros b'' Hs'. inversion Hs'; subst. apply toggle_involutive.
Qed.

(** C19: Re-rendering with a new key list keeps the state of every card that
    stays, mounts every new card collapsed, and unmounts the others. *)
Theorem reconcile_spec (old : CardStore) ks k :
  (k ∈ ks -> old !! k = None -> reconcile old ks !! k = Some false) /\
  (k ∈ ks -> forall b, old !! k = Some b -> reconcile old ks !! k = Some b) /\
  (k ∉ ks -> reconcile old ks !! k = None).
Proof.
  rewrite !reconcile_lookup. split_and!.
  - intros Hk Ho. by rewrite bool_decide_true, Ho.
  - intros Hk b Ho. by rewrite bool_decide_true, Ho.
  - intros Hk. by rewrite bool_decide_false.
Qed.

(** ** Concrete runs on the fixture *)

Import Fixture.

Lemma render_card_spec_witness :
  has_address leanne = true /\ has_company leanne = true /\
  render_card leanne true =
    Normal (MkCardView "Leanne Graham" "@Bret" "Sincere@april.biz" "Romaguera-Crona"
              "Gwenborough" "Hide Details"
              (Some (MkDetails "1-770-736-8031 x56442" "hildegard.org"
                       "Kulas Light, 92998-3874"))).
Proof. split_and!; [reflexivity | reflexivity | apply render_card_spec; reflexivity]. Defined.

Lemma card_step_alternates_witness :
  card_step init_showMore true /\ mode_of true <> mode_of init_showMore /\
  (forall b'', card_step true b'' -> b'' = init_showMore).
Proof.
  assert (card_step init_showMore true) as Hs by apply (press_toggle false).
  split; [exact Hs | apply card_step_alternates, Hs].
Defined.

End Card.
Export Card.
