(* ===== verification/App.v ===== *)
(** The [App] component (src/src/app.jsx).  Its state is the seven
    [useState] hooks (lines 5-11), changed only through setter calls,
    modelled as [Update]s applied in call order.  The effect of lines
    13-28 issues one request at mount; its settlement runs either the
    success callback ([setUsers(data); setLoading(false)]) or the [catch]
    callback ([setError(err.message); setLoading(false)]).  [render] is
    the function body after the hooks: the derived lists and
    [filteredUsers] of [Filter], then the JSX of lines 42-91;
    [render_grid] renders the [UserCard] children over any
    [CardComponent], and [render_page] is one whole frame.  The handlers
    of lines 51-68 return their updates; a handler's updates are rendered
    either once after all of them (React 18's automatic batching) or after
    each one (React 17 outside event handlers).  The session that strings
    these together is in [Session]. *)

From stdpp Require Import gmap.
From S2P Require Import Prelude JsString JsArray JsSet User Filter UserCard.
Local Open Scope string_scope.

Module AppModel.

(** ** State (lines 5-11) *)

Record AppState := MkApp {
  users : list User.t;
  loading : bool;
  error : option string;
  search : string;
  cityFilter : string;
  companyFilter : string;
  darkMode : bool
}.

(** The initial values passed to [useState]. *)
Definition init_state : AppState := MkApp [] true None "" "" "" false.

(** The setter calls the code makes.  [setDarkMode] is only called with
    the functional update [prev => !prev]. *)
Inductive Update :=
  | SetUsers (l : list User.t)
  | SetLoading (b : bool)
  | SetError (e : option string)
  | SetSearch (s : string)
  | SetCityFilter (s : string)
  | SetCompanyFilter (s : string)
  | ToggleDarkMode.

Definition apply_update (st : AppState) (up : Update) : AppState :=
  match up with
  | SetUsers l => MkApp l (loading st) (error st) (search st) (cityFilter st) (companyFilter st) (darkMode st)
  | SetLoading b => MkApp (users st) b (error st) (search st) (cityFilter st) (companyFilter st) (darkMode st)
  | SetError e => MkApp (users st) (loading st) e (search st) (cityFilter st) (companyFilter st) (darkMode st)
  | SetSearch s => MkApp (users st) (loading st) (error st) s (cityFilter st) (companyFilter st) (darkMode st)
  | SetCityFilter s => MkApp (users st) (loading st) (error st) (search st) s (companyFilter st) (darkMode st)
  | SetCompanyFilter s => MkApp (users st) (loading st) (error st) (search st) (cityFilter st) s (darkMode st)
  | ToggleDarkMode => MkApp (users st) (loading st) (error st) (search st) (cityFilter st) (companyFilter st) (negb (darkMode st))
  end.

(** The queued updates of one handler, in call order. *)
Definition apply_updates (st : AppState) (ups : list Update) : AppState :=
  fold_left apply_update ups st.

(** ** The fetch effect (lines 13-28) *)

(** The decoded body of a response: the records, or the message of the
    [SyntaxError] that [res.json()] rejects with. *)
Inductive Body :=
  | BodyUsers (l : list User.t)
  | BodyMalformed (msg : string).

(** How the request settles: [fetch] rejects with a [TypeError], or a
    response arrives with a status and a body. *)
Inductive FetchOutcome :=
  | NetworkError (msg : string)
  | Response (status : Z) (body : Body).

(** [res.ok]: the status is in 200-299. *)
Definition res_ok (status : Z) : bool := (200 <=? status)%Z && (status <=? 299)%Z.

(** [.then(res => { if (!res.ok) throw new Error('Failed to fetch');
    return res.json(); })] *)
Definition then_json (o : FetchOutcome) : completion (list User.t) :=
  match o with
  | NetworkError m => Throw (TypeError m)
  | Response status body =>
      if negb (res_ok status) then Throw (Error "Failed to fetch")
      else match body with
           | BodyUsers l => Normal l
           | BodyMalformed m => Throw (SyntaxError m)
           end
  end.

(** [.then(data => { setUsers(data); setLoading(false); })
    .catch(err => { setError(err.message); setLoading(false); })] *)
Definition fetch_settle (o : FetchOutcome) : list Update :=
  match then_json o with
  | Normal data => [SetUsers data; SetLoading false]
  | Throw e => [SetError (Some (exn_message e)); SetLoading false]
  end.

(** ** Render (lines 30-91) *)

(** The header: the search input, the two selects as (value, label)
    options with their values, and the mode button's label. *)
Record HeaderView := MkHeader {
  hv_search : string;
  hv_city_value : string;
  hv_city_options : list (string * string);
  hv_company_value : string;
  hv_company_options : list (string * string);
  hv_toggle_label : string
}.

(** What is shown below the header: the loading line, the error line,
    and the grid of cards (key and record) with its "no match" line. *)
Inductive BodyNode :=
  | LoadingLine
  | ErrorLine (msg : string)
  | Grid (cards : list (Z * User.t)) (no_match : bool).

Record View := MkView {
  v_root_class : string;
  v_header : HeaderView;
  v_body : list BodyNode
}.

(** [<option value="">All</option>] followed by one option per value. *)
Definition select_options (all : string) (vals : list string) : list (string * string) :=
  ("", all) :: map (fun v => (v, v)) vals.

Definition render_body (st : AppState) (fu : list User.t) : list BodyNode :=
  (if loading st then [LoadingLine] else []) ++
  (if truthy_opt_str (error st) then [ErrorLine (default "" (error st))] else []) ++
  (if negb (loading st) && negb (truthy_opt_str (error st))
   then [Grid (map (fun u => (User.id u, u)) fu) (bool_decide (length fu = 0))]
   else []).

(** The function body after the hooks. *)
Definition render (st : AppState) : completion View :=
  cs <- cities (users st) ;;
  ks <- companies (users st) ;;
  fu <- filteredUsers (search st) (cityFilter st) (companyFilter st) (users st) ;;
  Normal (MkView (if darkMode st then "dark" else "")
            (MkHeader (search st) (cityFilter st) (select_options "All Cities" cs)
                      (companyFilter st) (select_options "All Companies" ks)
                      (if darkMode st then "Light Mode" else "Dark Mode"))
            (render_body st fu)).

(** ** The grid of cards (lines 79-87) *)

Section Grid.
Context `{CardComponent}.

(** [filteredUsers.map(user => <UserCard key={user.id} user={user} />)]:
    every card rendered with the state its key holds in the store. *)
Definition render_grid (store : CardStore) (cards : list (Z * User.t)) :
    completion (list CardView) :=
  array_map (fun '(k, u) => card_render u (default card_init (store !! k))) cards.

(** Clicking the button of the card with key [k], then rendering. *)
Definition click_card (k : Z) (store : CardStore) (cards : list (Z * User.t)) :
    completion (list CardView) :=
  render_grid (toggle_card k store) cards.

End Grid.

(** The keys of the cards a view shows. *)
Definition grid_keys (v : View) : list Z :=
  flat_map (fun n => match n with Grid cs _ => map fst cs | _ => [] end) (v_body v).

(** The cards a view shows, with their keys. *)
Definition grid_cards (v : View) : list (Z * User.t) :=
  flat_map (fun n => match n with Grid cs _ => cs | _ => [] end) (v_body v).

Section Page.
Context `{CardComponent}.

(** One frame of the page: [App]'s render, then the [UserCard] children
    it returns, each with the state the store holds for its key. *)
Definition render_page (st : AppState) (store : CardStore) :
    completion (View * list CardView) :=
  v <- render st ;;
  cvs <- render_grid store (grid_cards v) ;;
  Normal (v, cvs).

End Page.

(** ** Handlers (lines 51, 54, 61, 68) *)

(** [onChange={e => setSearch(e.target.value)}] *)
Definition on_search_change (v : string) : list Update := [SetSearch v].

(** [onChange={e => setCityFilter(e.target.value)}] *)
Definition on_city_change (v : string) : list Update := [SetCityFilter v].

(** [onChange={e => setCompanyFilter(e.target.value)}] *)
Definition on_company_change (v : string) : list Update := [SetCompanyFilter v].

(** [onClick={() => setDarkMode(prev => !prev)}] *)
Definition on_toggle_click : list Update := [ToggleDarkMode].

(** ** Committing a handler's updates *)

(** React 18: one render after all updates of the handler. *)
Definition commit_batched (st : AppState) (ups : list Update) : list AppState :=
  [apply_updates st ups].

(** React 17 outside its own event handlers: one render after each
    update. *)
Fixpoint commit_unbatched (st : AppState) (ups : list Update) : list AppState :=
  match ups with
  | [] => []
  | up :: ups' => let st' := apply_update st up in st' :: commit_unbatched st' ups'
  end.

(** ** Well-formed views *)

(** A grid as the JSX builds it: every card keyed by its user's id, and
    the "no match" line exactly when there is no card. *)
Definition node_wf (n : BodyNode) : bool :=
  match n with
  | Grid cs nm => Bool.eqb nm (bool_decide (cs = [])) &&
                  forallb (fun '(k, u) => bool_decide (k = User.id u)) cs
  | _ => true
  end.

(** A view the page can show as rendered: each controlled select's value
    is the value of one of its options (React shows the first option of
    a select whose value has none), and every grid is well formed. *)
Definition view_wf (v : View) : Prop :=
  hv_city_value (v_header v) ∈ map fst (hv_city_options (v_header v)) /\
  hv_company_value (v_header v) ∈ map fst (hv_company_options (v_header v)) /\
  Forall (fun n => node_wf n = true) (v_body v).

#[export] Instance view_wf_dec v : Decision (view_wf v).
Proof. unfold view_wf. apply _. Defined.

(** ** Fixtures *)

(** The state after a successful load of the fixture records. *)
Definition loaded_state : AppState :=
  apply_updates init_state (fetch_settle (Response 200 (BodyUsers Fixture.sample))).

(** A card store in which the card of key 2 is mounted and collapsed, the
    grid of two fixture records, and the views of their cards. *)
Definition store_two_collapsed : CardStore := {[2%Z := false]}.

Definition demo_cards : list (Z * User.t) := [(1%Z, Fixture.leanne); (2%Z, Fixture.ervin)].

Definition leanne_view : CardView :=
  MkCardView "Leanne Graham" "@Bret" "Sincere@april.biz" "Romaguera-Crona"
    "Gwenborough" "View More" None.

Definition ervin_collapsed_view : CardView :=
  MkCardView "Ervin Howell" "@Antonette" "Shanna@melissa.tv" "Deckow-Crist"
    "Wisokyburgh" "View More" None.

Definition ervin_expanded_view : CardView :=
  MkCardView "Ervin Howell" "@Antonette" "Shanna@melissa.tv" "Deckow-Crist"
    "Wisokyburgh" "Hide Details"
    (Some (MkDetails "010-692-6593 x09125" "anastasia.net" "Victor Plains, 90566-7771")).

(** ** Lemmas *)

Lemma render_Normal st v :
  render st = Normal v ->
  exists cs ks fu,
    cities (users st) = Normal cs /\ companies (users st) = Normal ks /\
    filteredUsers (search st) (cityFilter st) (companyFilter st) (users st) = Normal fu /\
    v = MkView (if darkMode st then "dark" else "")
          (MkHeader (search st) (cityFilter st) (select_options "All Cities" cs)
                    (companyFilter st) (select_options "All Companies" ks)
                    (if darkMode st then "Light Mode" else "Dark Mode"))
          (render_body st fu).
Proof.
  unfold render.
  destruct (cities (users st)) as [cs|]; [|discriminate]. simpl.
  destruct (companies (users st)) as [ks|]; [|discriminate]. simpl.
  destruct (filteredUsers _ _ _ _) as [fu|]; [|discriminate]. simpl.
  intros [= <-]. eauto 10.
Qed.

Lemma select_options_values all vals c :
  c ∈ map fst (select_options all vals) <-> c = "" \/ c ∈ vals.
Proof.
  unfold select_options. simpl. rewrite elem_of_cons.
  rewrite map_map. simpl. by rewrite map_id.
Qed.

(** Rendering an empty list of users cannot throw. *)
Lemma render_no_users st :
  users st = [] ->
  render st = Normal (MkView (if darkMode st then "dark" else "")
          (MkHeader (search st) (cityFilter st) (select_options "All Cities" [])
                    (companyFilter st) (select_options "All Companies" [])
                    (if darkMode st then "Light Mode" else "Dark Mode"))
          (render_body st [])).
Proof. unfold render. intros ->. reflexivity. Qed.
(** A selected option is empty or the value of a loaded user. *)
Lemma city_select_value st v c :
  render st = Normal v -> c ∈ map fst (hv_city_options (v_header v)) ->
  c = "" \/ exists u, u ∈ users st /\ city_of u = c.
Proof.
  intros (cs & ks & fu & Hcs & _ & _ & ->)%render_Normal. cbn [v_header hv_city_options].
  rewrite select_options_values. apply cities_Normal in Hcs as [-> _].
  rewrite distinct_elem_of, elem_of_map. naive_solver.
Qed.

Lemma company_select_value st v c :
  render st = Normal v -> c ∈ map fst (hv_company_options (v_header v)) ->
  c = "" \/ exists u, u ∈ users st /\ company_of u = c.
Proof.
  intros (cs & ks & fu & _ & Hks & _ & ->)%render_Normal. cbn [v_header hv_company_options].
  rewrite select_options_values. apply companies_Normal in Hks as [-> _].
  rewrite distinct_elem_of, elem_of_map. naive_solver.
Qed.
(** The body shows exactly one node when [loading] and [error] are not
    both set; it is the loading line iff [loading]. *)
Lemma render_body_single st fu :
  (loading st = true -> error st = None) ->
  exists n, render_body st fu = [n] /\ (n = LoadingLine <-> loading st = true).
Proof.
  intros Hle. unfold render_body.
  destruct (loading st) eqn:Hl.
  - rewrite Hle by done. exists LoadingLine. done.
  - destruct (truthy_opt_str (error st)); simpl; eexists; (split; [done|]);
      split; discriminate.
Qed.

Lemma grid_keys_cards v : grid_keys v = map fst (grid_cards v).
Proof.
  unfold grid_keys, grid_cards. induction (v_body v) as [|n ns IH]; simpl; [done|].
  rewrite map_app, IH. by destruct n.
Qed.

(** A render that returns has read the address and the company of every
    user. *)
Lemma render_all_wf st v : render st = Normal v -> all_wf (users st) = true.
Proof.
  intros (cs & ks & fu & Hc & Hk & _)%render_Normal.
  apply cities_Normal in Hc as [_ Ha]. apply companies_Normal in Hk as [_ Hk].
  unfold all_wf, wf_user. apply forallb_forall. intros u Hu. rewrite <- list_elem_of_In in Hu.
  by rewrite (forallb_elem_of _ _ _ Ha Hu), (forallb_elem_of _ _ _ Hk Hu).
Qed.

Lemma grid_cards_render_body r h st fu :
  grid_cards (MkView r h (render_body st fu)) =
    if negb (loading st) && negb (truthy_opt_str (error st))
    then map (fun u => (User.id u, u)) fu else [].
Proof.
  unfold grid_cards, render_body. simpl.
  destruct (loading st), (truthy_opt_str (error st)); simpl; by rewrite ?app_nil_r.
Qed.

(** A card of a rendered view is a user that passed the filters, keyed by
    its id; its nested objects are present, since [cities] and
    [companies] read them on every user. *)
Lemma render_grid_cards st v k u :
  render st = Normal v -> (k, u) ∈ grid_cards v -> k = User.id u /\ wf_user u = true.
Proof.
  intros Hr. pose proof (render_all_wf st v Hr) as Hwf.
  apply render_Normal in Hr as (cs & ks & fu & _ & _ & Hf & ->).
  apply filteredUsers_Normal_sublist in Hf.
  rewrite grid_cards_render_body. case_match; [|by rewrite elem_of_nil].
  rewrite elem_of_map. intros (x & [= -> ->] & Hx). split; [done|].
  eauto using all_wf_elem_of, elem_of_sublist.
Qed.

(** Setting the search text and the selections to any values keeps the
    render normal: the option lists read the same users, and the filters
    read only what the option lists have read. *)
Lemma render_set_filters st v s c k :
  render st = Normal v ->
  exists fu, render (MkApp (users st) (loading st) (error st) s c k (darkMode st)) =
    Normal (MkView (v_root_class v)
              (MkHeader s c (hv_city_options (v_header v)) k (hv_company_options (v_header v))
                        (hv_toggle_label (v_header v)))
              (render_body st fu)).
Proof.
  intros Hr. destruct (filteredUsers_total s c k (users st) (render_all_wf st v Hr)) as [fu Hfu].
  apply render_Normal in Hr as (cs & ks & fu0 & Hcs & Hks & _ & ->).
  exists fu. unfold render. simpl. rewrite Hcs, Hks, Hfu. reflexivity.
Qed.

(** A search text and a settlement change disjoint fields of the state. *)
Lemma settle_search_commute_app st o t :
  apply_updates (apply_updates st (on_search_change t)) (fetch_settle o) =
  apply_updates (apply_updates st (fetch_settle o)) (on_search_change t).
Proof. destruct st. unfold fetch_settle. by destruct (then_json o). Qed.

(** The body of every render is well formed, whatever the state. *)
Lemma render_body_wf st fu : Forall (fun n => node_wf n = true) (render_body st fu).
Proof.
  unfold render_body. repeat apply Forall_app_2; repeat case_match; repeat constructor.
  simpl. apply andb_true_iff. split.
  - apply Bool.eqb_true_iff. apply bool_decide_ext. by rewrite <- length_zero_iff_nil, length_map.
  - apply forallb_forall. intros [k u] (x & [= <- <-] & _)%in_map_iff. by apply bool_decide_true.
Qed.

Section GridLemmas.
Context `{CardComponent}.

Lemma render_grid_lookup store cards vs i k u v :
  render_grid store cards = Normal vs -> cards !! i = Some (k, u) -> vs !! i = Some v ->
  card_render u (default card_init (store !! k)) = Normal v.
Proof.
  intros Hg%array_map_Normal Hc Hv. by pose proof (Forall2_lookup_lr _ _ _ _ _ _ Hg Hc Hv).
Qed.

(** What a click does to each card view of a rendered grid. *)
Lemma click_card_views store cards k vs vs' i k' u v v' :
  render_grid store cards = Normal vs -> click_card k store cards = Normal vs' ->
  cards !! i = Some (k', u) -> vs !! i = Some v -> vs' !! i = Some v' ->
  (k' <> k -> v' = v) /\
  (k' = k -> is_Some (store !! k) -> (is_Some (cv_details v') <-> ~ is_Some (cv_details v))).
Proof.
  intros Hg Hg' Hc Hv Hv'.
  pose proof (render_grid_lookup _ _ _ _ _ _ _ Hg Hc Hv) as Hr.
  pose proof (render_grid_lookup _ _ _ _ _ _ _ Hg' Hc Hv') as Hr'.
  rewrite toggle_card_lookup in Hr'. split.
  - intros Hne. rewrite decide_False in Hr' by congruence. congruence.
  - intros -> [b Hb]. rewrite decide_True, Hb in Hr' by done. rewrite Hb in Hr. simpl in *.
    rewrite (card_render_details _ _ _ Hr'), (card_render_details _ _ _ Hr), card_toggle_negb.
    destruct b; simpl; intuition congruence.
Qed.

(** C9: Clicking the button of card [k] in a rendered grid: the other cards
    render as before, and card [k], when mounted, shows its details iff
    it did not before. *)
Theorem click_card_one_card store cards k vs vs' i k' u v v' :
  render_grid store cards = Normal vs -> click_card k store cards = Normal vs' ->
  cards !! i = Some (k', u) -> vs !! i = Some v -> vs' !! i = Some v' ->
  (k' <> k -> v' = v) /\
  (k' = k -> is_Some (store !! k) -> (is_Some (cv_details v') <-> ~ is_Some (cv_details v))).
Proof. apply click_card_views. Qed.

(** A frame is [App]'s view and the grid rendered from the store. *)
Lemma render_page_Normal st store v cvs :
  render_page st store = Normal (v, cvs) <->
  render st = Normal v /\ render_grid store (grid_cards v) = Normal cvs.
Proof.
  unfold render_page. split.
  - destruct (render st) as [v0|]; simpl; [|discriminate].
    destruct (render_grid store (grid_cards v0)) as [cvs0|] eqn:Hg; simpl; [|discriminate].
    intros [= <- <-]. by split.
  - intros [Hr Hg]. by rewrite Hr, cbind_normal, Hg.
Qed.

(** The grid reads the store only at the keys of its cards. *)
Lemma render_grid_ext store1 store2 cards :
  (forall k u, (k, u) ∈ cards -> default card_init (store1 !! k) = default card_init (store2 !! k)) ->
  render_grid store1 cards = render_grid store2 cards.
Proof. intros Hst. apply array_map_ext. intros [k u] Hku. by rewrite (Hst k u Hku). Qed.

(** Reconciling the store with the grid's own keys renders the same grid. *)
Lemma render_grid_reconcile old cards :
  render_grid (reconcile old (map fst cards)) cards = render_grid old cards.
Proof.
  apply render_grid_ext. intros k u Hku.
  rewrite reconcile_lookup, bool_decide_true; [done|].
  apply elem_of_map. by exists (k, u).
Qed.

(** A page whose [App] render returned: every card of its grid renders,
    whatever state the store holds, one card view per card. *)
Lemma render_grid_total st store v :
  render st = Normal v ->
  exists cvs, render_grid store (grid_cards v) = Normal cvs /\ length cvs = length (grid_cards v).
Proof.
  intros Hr. apply array_map_total. intros [k u] Hku.
  apply card_render_wf. by apply (render_grid_cards st v k u Hr Hku).
Qed.

(** C15: The page never throws in a card: once [App]'s render returns, the
    frame does, with one card view per card of the grid. *)
Theorem render_page_total st store v :
  render st = Normal v ->
  exists cvs, render_page st store = Normal (v, cvs) /\ length cvs = length (grid_cards v).
Proof.
  intros Hr. destruct (render_grid_total st store v Hr) as (cvs & Hg & Hl).
  exists cvs. unfold render_page. by rewrite Hr, cbind_normal, Hg.
Qed.

End GridLemmas.

(** ** Theorems *)

(** C22: A response with a 2xx status and a body of records loads them and
    clears [loading]. *)
Theorem fetch_settle_success st status l :
  res_ok status = true ->
  apply_updates st (fetch_settle (Response status (BodyUsers l))) =
    MkApp l false (error st) (search st) (cityFilter st) (companyFilter st) (darkMode st).
Proof. intros Hok. unfold fetch_settle, then_json. by rewrite Hok. Qed.

(** C23: Every non-2xx status, whatever the body, settles to the same
    message "Failed to fetch": the status is not surfaced. *)
Theorem fetch_settle_status_discarded st s1 s2 b1 b2 :
  res_ok s1 = false -> res_ok s2 = false ->
  apply_updates st (fetch_settle (Response s1 b1)) =
  apply_updates st (fetch_settle (Response s2 b2)) /\
  error (apply_updates st (fetch_settle (Response s1 b1))) = Some "Failed to fetch".
Proof. intros H1 H2. unfold fetch_settle, then_json. by rewrite H1, H2. Qed.
(** C28: The mode button flips the root class and the button label and
    changes nothing else: the body (load state and filtered grid) is the
    same. *)
Theorem toggle_dark_mode_frame st v :
  render st = Normal v ->
  exists v', render (apply_updates st on_toggle_click) = Normal v' /\
    v_body v' = v_body v /\
    v_root_class v' = (if darkMode st then "" else "dark").
Proof.
  intros (cs & ks & fu & Hcs & Hks & Hfu & ->)%render_Normal.
  unfold render. simpl. rewrite Hcs, Hks, Hfu. simpl.
  eexists. split; [done|]. split; [done|]. by destruct (darkMode st).
Qed.

(** [setDarkMode(prev => !prev)] is a functional update: two clicks
    handled in one batch cancel out. *)
Theorem toggle_twice_batched st :
  apply_updates st (on_toggle_click ++ on_toggle_click) = st.
Proof. destruct st. simpl. by rewrite negb_involutive. Qed.

(** C17: The search input and the two selects are controlled: after a
    change event with value [x] the next render returns, the control
    shows [x], and a select keeps its options. *)
Theorem controlled_inputs_roundtrip st v x :
  render st = Normal v ->
  (exists v', render (apply_updates st (on_search_change x)) = Normal v' /\
     hv_search (v_header v') = x) /\
  (exists v', render (apply_updates st (on_city_change x)) = Normal v' /\
     hv_city_value (v_header v') = x /\
     hv_city_options (v_header v') = hv_city_options (v_header v)) /\
  (exists v', render (apply_updates st (on_company_change x)) = Normal v' /\
     hv_company_value (v_header v') = x /\
     hv_company_options (v_header v') = hv_company_options (v_header v)).
Proof.
  intros Hr. split_and!.
  - destruct (render_set_filters st v x (cityFilter st) (companyFilter st) Hr) as [fu Hfu].
    eexists. split; [exact Hfu | done].
  - destruct (render_set_filters st v (search st) x (companyFilter st) Hr) as [fu Hfu].
    eexists. split; [exact Hfu | done].
  - destruct (render_set_filters st v (search st) (cityFilter st) x Hr) as [fu Hfu].
    eexists. split; [exact Hfu | done].
Qed.

(** ** Concrete runs on the fixture *)

Import Fixture.

Lemma click_card_one_card_witness :
  render_grid store_two_collapsed demo_cards = Normal [leanne_view; ervin_collapsed_view] /\
  click_card 2 store_two_collapsed demo_cards = Normal [leanne_view; ervin_expanded_view] /\
  (is_Some (cv_details ervin_expanded_view) <-> ~ is_Some (cv_details ervin_collapsed_view)).
Proof.
  assert (render_grid store_two_collapsed demo_cards =
          Normal [leanne_view; ervin_collapsed_view]) as H1 by (vm_compute; reflexivity).
  assert (click_card 2 store_two_collapsed demo_cards =
          Normal [leanne_view; ervin_expanded_view]) as H2 by (vm_compute; reflexivity).
  split; [exact H1 | split; [exact H2 |]].
  exact (proj2 (click_card_one_card store_two_collapsed demo_cards 2 _ _ 1 2 ervin _ _
                  H1 H2 eq_refl eq_refl eq_refl) eq_refl ltac:(exists false; reflexivity)).
Defined.
Lemma fetch_settle_success_witness :
  res_ok 200 = true /\
  apply_updates init_state (fetch_settle (Response 200 (BodyUsers sample))) =
    MkApp sample false None "" "" "" false.
Proof. split; [reflexivity | apply (fetch_settle_success init_state); reflexivity]. Defined.

Lemma fetch_settle_status_discarded_witness :
  res_ok 500 = false /\ res_ok 404 = false /\
  (apply_updates init_state (fetch_settle (Response 500 (BodyMalformed "Unexpected token <"))) =
   apply_updates init_state (fetch_settle (Response 404 (BodyUsers sample))) /\
   error (apply_updates init_state
            (fetch_settle (Response 500 (BodyMalformed "Unexpected token <")))) =
     Some "Failed to fetch").
Proof.
  split; [reflexivity | split; [reflexivity |]].
  apply fetch_settle_status_discarded; reflexivity.
Defined.
Lemma toggle_dark_mode_frame_witness :
  exists v, render loaded_state = Normal v /\
    exists v', render (apply_updates loaded_state on_toggle_click) = Normal v' /\
      v_body v' = v_body v /\ v_root_class v' = "dark".
Proof.
  eexists. split; [vm_compute; reflexivity|].
  apply toggle_dark_mode_frame. vm_compute; reflexivity.
Defined.
Lemma render_page_total_witness :
  exists v cvs, render loaded_state = Normal v /\
    render_page loaded_state store_two_collapsed = Normal (v, cvs) /\ length cvs = 3.
Proof.
  pose proof (render_page_total loaded_state store_two_collapsed _ eq_refl)
    as (cvs & Hp & Hl).
  eexists. exists cvs. split_and!; [reflexivity | exact Hp | exact Hl].
Defined.
Lemma controlled_inputs_roundtrip_witness :
  exists v, render loaded_state = Normal v /\
    exists v', render (apply_updates loaded_state (on_city_change "Gwenborough")) = Normal v' /\
      hv_city_value (v_header v') = "Gwenborough" /\
      hv_city_options (v_header v') = hv_city_options (v_header v).
Proof.
  pose proof (controlled_inputs_roundtrip loaded_state _ "Gwenborough" eq_refl) as (_ & Hc & _).
  eexists. split; [reflexivity | exact Hc].
Defined.

End AppModel.
Export AppModel.
