(* ===== verification/Session.v ===== *)
(** The session of the page: the mounted [App] (src/src/app.jsx) with
    its pending request and the [UserCard]s it has mounted.  An [Event]
    is the settlement of the request or one user action; [handler] maps
    it to the updates of the code's callback, and [card_effect] to the
    change of the card store a card's button makes.  [step] applies them
    and renders: the card store is reconciled with the keys of the new
    grid ([mounted_cards]), and a render that throws unmounts the page.
    [reachable] is the least set of sessions closed under [step] from
    [session_init]; [inv] is its invariant. *)

From stdpp Require Import gmap.
From S2P Require Import Prelude JsString JsArray JsSet User Filter UserCard App.
Local Open Scope string_scope.

Module AppSession.

(** ** Events (lines 13-28, 51-68, UserCard.jsx line 16) *)

(** What can happen to a mounted [App]: the request settles, or the user
    types, selects or clicks. *)
Inductive Event :=
  | FetchSettled (o : FetchOutcome)
  | SearchInput (v : string)
  | CitySelect (v : string)
  | CompanySelect (v : string)
  | ToggleClick
  | CardClick (k : Z).

Definition handler (e : Event) : list Update :=
  match e with
  | FetchSettled o => fetch_settle o
  | SearchInput v => on_search_change v
  | CitySelect v => on_city_change v
  | CompanySelect v => on_company_change v
  | ToggleClick => on_toggle_click
  | CardClick _ => []
  end.

(** A card's button changes the card store, nothing of [App]'s state. *)
Definition card_effect (e : Event) (store : CardStore) : CardStore :=
  match e with
  | CardClick k => toggle_card k store
  | _ => store
  end.

(** A page event is possible on a rendered view: a select only delivers
    the value of one of its options. *)
Definition event_enabled (v : View) (e : Event) : Prop :=
  match e with
  | FetchSettled _ => False
  | SearchInput _ | ToggleClick => True
  | CitySelect c => c ∈ map fst (hv_city_options (v_header v))
  | CompanySelect c => c ∈ map fst (hv_company_options (v_header v))
  | CardClick k => k ∈ grid_keys v
  end.

(** The cards mounted after a render of [st]: the store reconciled with the
    keys of the grid, or nothing when the render throws (React unmounts
    the page). *)
Definition mounted_cards (st : AppState) (old : CardStore) : CardStore :=
  match render st with
  | Normal v => reconcile old (grid_keys v)
  | Throw _ => ∅
  end.

(** ** The session *)

(** The state of [App], whether the request issued at mount has not
    settled yet, and the [showMore] of every mounted card by key. *)
Record Session := MkSession { app : AppState; pending : bool; cards : CardStore }.

Definition session_init : Session := MkSession init_state true ∅.

(** Every step applies the callback's updates, then renders: the card
    store is reconciled with the keys of the new grid. *)
Inductive step : Session -> Event -> Session -> Prop :=
  | step_settle st o c :
      step (MkSession st true c) (FetchSettled o)
           (MkSession (apply_updates st (fetch_settle o)) false
                      (mounted_cards (apply_updates st (fetch_settle o)) c))
  | step_input st p c v e :
      render st = Normal v -> event_enabled v e ->
      step (MkSession st p c) e
           (MkSession (apply_updates st (handler e)) p
                      (mounted_cards (apply_updates st (handler e)) (card_effect e c))).

(** The page event [e] as a function: what [step_input] produces. *)
Definition run_event (s : Session) (e : Event) : Session :=
  MkSession (apply_updates (app s) (handler e)) (pending s)
            (mounted_cards (apply_updates (app s) (handler e)) (card_effect e (cards s))).

Inductive reachable : Session -> Prop :=
  | reach_init : reachable session_init
  | reach_step s e s' : reachable s -> step s e s' -> reachable s'.

(** What the page shows in a session: the frame of its state, the cards
    rendered with the store's states. *)
Definition frame (s : Session) : completion (View * list CardView) :=
  render_page (app s) (cards s).

(** One step, whatever its event. *)
Definition session_step (s s' : Session) : Prop := exists e, step s e s'.

(** The invariant of reachable sessions: [loading] tracks the request;
    nothing is loaded or failed before it settles; a failure loads
    nothing; the selected city and company are empty or those of a
    loaded user. *)
Definition inv (s : Session) : Prop :=
  loading (app s) = pending s /\
  (pending s = true -> users (app s) = [] /\ error (app s) = None) /\
  (error (app s) <> None -> users (app s) = []) /\
  (cityFilter (app s) = "" \/ exists u, u ∈ users (app s) /\ city_of u = cityFilter (app s)) /\
  (companyFilter (app s) = "" \/
   exists u, u ∈ users (app s) /\ company_of u = companyFilter (app s)) /\
  (forall k, is_Some (cards s !! k) <->
             exists v, render (app s) = Normal v /\ k ∈ grid_keys v).

(** The session after a successful load of the fixture. *)
Definition loaded_session : Session :=
  MkSession loaded_state false (mounted_cards loaded_state ∅).

(** Typing "ette" after the load (only Ervin's card stays), clicking
    Ervin's card, and clearing the search again. *)
Definition after_search : Session := run_event loaded_session (SearchInput "ette").

Definition after_click : Session := run_event after_search (CardClick 2).

Definition after_clear : Session := run_event after_click (SearchInput "").

(** ** Lemmas *)

(** The store holds exactly the keys of the grid on screen. *)
Lemma mounted_cards_dom st c k :
  is_Some (mounted_cards st c !! k) <-> exists v, render st = Normal v /\ k ∈ grid_keys v.
Proof.
  unfold mounted_cards. destruct (render st) as [v|e].
  - rewrite reconcile_lookup. case_bool_decide as Hk; split.
    + eauto.
    + intros _. by eexists.
    + by intros [? ?].
    + intros (v' & [= <-] & ?). done.
  - rewrite lookup_empty. split; [by intros [? ?] | by intros (? & ? & _)].
Qed.

Lemma inv_init : inv session_init.
Proof.
  unfold inv. simpl. split_and!; try naive_solver.
  intros k. rewrite lookup_empty, render_no_users by done.
  split; [by intros [? ?] | intros (v & [= <-] & Hk); simpl in Hk; set_solver].
Qed.
Lemma inv_step s e s' : inv s -> step s e s' -> inv s'.
Proof.
  intros Hinv Hs.
  assert (forall k, is_Some (cards s' !! k) <->
                    exists v, render (app s') = Normal v /\ k ∈ grid_keys v) as Hstore
    by (destruct Hs; intros k; apply mounted_cards_dom).
  destruct Hs as [st o c | st p c v e Hr He]; unfold inv in *; simpl in *.
  - destruct Hinv as (Hl & Hp & _ & Hc & Hk & _). destruct (Hp eq_refl) as [Hu He].
    rewrite Hu in Hc, Hk.
    assert (cityFilter st = "") as Hc' by (destruct Hc as [|(? & ? & _)]; [done | set_solver]).
    assert (companyFilter st = "") as Hk' by (destruct Hk as [|(? & ? & _)]; [done | set_solver]).
    revert Hstore. unfold fetch_settle. destruct (then_json o); simpl; rewrite ?Hu, ?Hc', ?Hk';
      intros Hstore; split_and!; auto; congruence.
  - destruct Hinv as (? & ? & ? & Hc & Hk & _).
    destruct e; simpl in *; try done; split_and!; auto.
    + by apply (city_select_value st v).
    + by apply (company_select_value st v).
Qed.

Lemma reachable_inv_aux s : reachable s -> inv s.
Proof. induction 1; eauto using inv_init, inv_step. Qed.

(** The body shows exactly one node when [loading] and [error] are not
    both set; it is the loading line iff [loading]. *)
Lemma run_event_step s e v :
  render (app s) = Normal v -> event_enabled v e -> step s e (run_event s e).
Proof. destruct s as [st p c]. intros Hr He. by eapply step_input. Qed.

(** Every step reconciles the (clicked) store with the new grid. *)
Lemma step_cards s e s' :
  step s e s' -> cards s' = mounted_cards (app s') (card_effect e (cards s)).
Proof. by destruct 1. Qed.

Lemma mounted_cards_lookup_Some st c k :
  is_Some (mounted_cards st c !! k) -> mounted_cards st c !! k = Some (default card_init (c !! k)).
Proof.
  unfold mounted_cards. destruct (render st); [|by rewrite lookup_empty; intros [? ?]].
  rewrite reconcile_lookup. case_bool_decide; [done | by intros [? ?]].
Qed.

Lemma card_effect_None e c k : c !! k = None -> card_effect e c !! k = None.
Proof. destruct e; simpl; try done. intros Hk. rewrite toggle_card_lookup. case_decide; by rewrite Hk. Qed.

(** A page event steps to [run_event]; the settlement steps to the
    settled session. *)
Lemma step_run_event s e s' :
  step s e s' -> (forall o, e <> FetchSettled o) -> s' = run_event s e.
Proof. intros Hs Hne. destruct Hs as [st o c|st p c v e Hr He]; [by destruct (Hne o) | done]. Qed.

Lemma step_settle_eq s o s' :
  step s (FetchSettled o) s' ->
  s' = MkSession (apply_updates (app s) (fetch_settle o)) false
                 (mounted_cards (apply_updates (app s) (fetch_settle o)) (cards s)).
Proof. inversion 1 as [|st p c v e Hr He]; [done | destruct He]. Qed.

(** While [loading] the page shows no grid, so no card is mounted. *)
Lemma grid_keys_loading st v : loading st = true -> render st = Normal v -> grid_keys v = [].
Proof.
  intros Hl (cs & ks & fu & _ & _ & _ & ->)%render_Normal.
  unfold grid_keys, render_body. cbn [v_body]. rewrite Hl.
  by destruct (truthy_opt_str (error st)).
Qed.

(** Reconciling from a store whose cards are all in the initial state is
    reconciling from nothing. *)
Lemma mounted_cards_from_fresh st st' :
  mounted_cards st (mounted_cards st' ∅) = mounted_cards st ∅.
Proof.
  apply map_eq. intros k. unfold mounted_cards at 1 3.
  destruct (render st); [|done]. rewrite !reconcile_lookup.
  case_bool_decide; [|done]. rewrite lookup_empty.
  destruct (mounted_cards st' ∅ !! k) eqn:E; [|done].
  rewrite mounted_cards_lookup_Some, lookup_empty in E by (rewrite E; by eexists).
  by injection E as <-.
Qed.

(** Before the request settles no card is mounted. *)
Lemma cards_pending_empty s : reachable s -> pending s = true -> cards s = ∅.
Proof.
  intros (Hl & _ & _ & _ & _ & Hdom)%reachable_inv_aux Hp. rewrite Hp in Hl.
  apply map_eq. intros k. rewrite lookup_empty.
  destruct (cards s !! k) eqn:E; [exfalso|done].
  destruct (proj1 (Hdom k) ltac:(by eexists)) as (v & Hv & Hk).
  by rewrite (grid_keys_loading _ _ Hl Hv), elem_of_nil in Hk.
Qed.

(** Reconciling the store after a render never changes the frame: the
    cards shown read only the entries reconciling keeps. *)
Lemma render_page_mounted st c : render_page st (mounted_cards st c) = render_page st c.
Proof.
  unfold render_page, mounted_cards. destruct (render st) as [v|e]; [|done].
  rewrite !cbind_normal, grid_keys_cards, render_grid_reconcile. done.
Qed.

(** Steps from a reachable session stay reachable. *)
Lemma reachable_rtc s s' : reachable s -> rtc session_step s s' -> reachable s'.
Proof.
  intros Hs Hr. revert Hs.
  induction Hr as [s0|s1 s2 s3 [e He] _ IH]; intros Hs; [done|].
  apply IH. by eapply reach_step.
Qed.

(** Once the request has settled it stays settled: only [step_settle]
    clears [pending], and it needs it set. *)
Lemma settled_stays s s' : pending s = false -> rtc session_step s s' -> pending s' = false.
Proof.
  intros Hp Hr. revert Hp.
  induction Hr as [s0|s1 s2 s3 [e He] _ IH]; intros Hp; [done|].
  apply IH. by destruct He.
Qed.

(** ** Theorems *)

(** C4: Rule induction: every reachable session satisfies the invariant. *)
Theorem reachable_inv s : reachable s -> inv s.
Proof. induction 1 as [|s e s' _ IH Hs]; [apply inv_init | exact (inv_step s e s' IH Hs)]. Qed.

(** C3: In every reachable session whose render succeeds, exactly one of the
    loading line, the error line and the grid is shown, and it is the
    loading line exactly while the request is pending. *)
Theorem reachable_single_section s v :
  reachable s -> render (app s) = Normal v ->
  exists n, v_body v = [n] /\ (n = LoadingLine <-> pending s = true).
Proof.
  intros (Hl & Hp & _)%reachable_inv_aux (cs & ks & fu & _ & _ & _ & ->)%render_Normal.
  simpl. rewrite <- Hl. apply render_body_single. rewrite Hl. by intros []%Hp.
Qed.

(** C5: Every view a reachable session renders is well formed: each
    select shows a value it offers, and the grid is keyed by user ids
    with the "no match" line exactly when it is empty. *)
Theorem reachable_view_wf s v : reachable s -> render (app s) = Normal v -> view_wf v.
Proof.
  intros (_ & _ & _ & Hc & Hk & _)%reachable_inv_aux Hr.
  apply render_Normal in Hr as (cs & ks & fu & Hcs & Hks & _ & ->).
  apply cities_Normal in Hcs as [-> _]. apply companies_Normal in Hks as [-> _].
  unfold view_wf. cbn [v_header v_body hv_city_value hv_city_options
                      hv_company_value hv_company_options].
  rewrite !select_options_values, !distinct_elem_of, !elem_of_map.
  split_and!; [naive_solver | naive_solver | apply render_body_wf].
Qed.
(** C26: A failure whose message is the empty string leaves [error] falsy:
    the page shows the empty grid with "No users match your criteria"
    instead of an error. *)
Theorem empty_message_shows_no_match st c o e :
  reachable (MkSession st true c) -> then_json o = Throw e -> exn_message e = "" ->
  exists v, render (apply_updates st (fetch_settle o)) = Normal v /\
            v_body v = [Grid [] true].
Proof.
  intros (_ & Hp & _)%reachable_inv_aux Ho Hm. simpl in Hp.
  destruct (Hp eq_refl) as [Hu _]. unfold fetch_settle. rewrite Ho, Hm.
  eexists. rewrite render_no_users by (simpl; done). split; [done|].
  unfold render_body. simpl. done.
Qed.

(** C24: Without batching, the [catch] callback's first update renders a
    frame that shows the loading line and the error line together. *)
Theorem unbatched_failure_frame st c o e :
  reachable (MkSession st true c) -> then_json o = Throw e -> exn_message e <> "" ->
  exists st' v, st' ∈ commit_unbatched st (fetch_settle o) /\
    render st' = Normal v /\ v_body v = [LoadingLine; ErrorLine (exn_message e)].
Proof.
  intros (Hl & Hp & _)%reachable_inv_aux Ho Hm. simpl in Hl, Hp.
  destruct (Hp eq_refl) as [Hu _]. unfold fetch_settle. rewrite Ho.
  eexists _, _. split; [simpl; left|].
  rewrite render_no_users by (simpl; done). split; [done|].
  unfold render_body. simpl. rewrite Hl. apply truthy_str_true in Hm. by rewrite Hm.
Qed.

(** C25: With batching, the same settlement renders one frame, showing the
    error line only. *)
Theorem batched_failure_frame st c o e :
  reachable (MkSession st true c) -> then_json o = Throw e -> exn_message e <> "" ->
  exists v, commit_batched st (fetch_settle o) = [apply_updates st (fetch_settle o)] /\
    render (apply_updates st (fetch_settle o)) = Normal v /\
    v_body v = [ErrorLine (exn_message e)].
Proof.
  intros (Hl & Hp & _)%reachable_inv_aux Ho Hm. simpl in Hl, Hp.
  destruct (Hp eq_refl) as [Hu _]. unfold fetch_settle. rewrite Ho.
  eexists. split; [done|]. rewrite render_no_users by (simpl; done). split; [done|].
  unfold render_body. simpl. apply truthy_str_true in Hm. by rewrite Hm.
Qed.
(** C10: A card that stays on screen across any event other than a click on a
    card keeps its state: filtering never resets or transplants it. *)
Theorem card_state_kept s e s' k :
  step s e s' -> (forall k', e <> CardClick k') ->
  is_Some (cards s !! k) -> is_Some (cards s' !! k) -> cards s' !! k = cards s !! k.
Proof.
  intros Hs Hnc [b Hb] Hk'. rewrite (step_cards _ _ _ Hs) in *.
  rewrite mounted_cards_lookup_Some by done.
  destruct e as [o|t|t|t| |k0]; simpl; try (by rewrite Hb). by destruct (Hnc k0).
Qed.

(** C11: A click on the card with key [k] flips that card's state, leaves the
    other cards as they are, and keeps the card mounted. *)
Theorem card_click_step s s' k :
  reachable s -> step s (CardClick k) s' ->
  (exists b, cards s !! k = Some b /\ cards s' !! k = Some (negb b)) /\
  (forall k', k' <> k -> cards s' !! k' = cards s !! k').
Proof.
  intros Hr Hs.
  destruct (reachable_inv_aux _ Hr) as (_ & _ & _ & _ & _ & Hdom).
  inversion Hs as [|st p c v e Hrender Hen]; subst. simpl in *.
  assert (forall k', is_Some (c !! k') <-> k' ∈ grid_keys v) as Hd.
  { intros k'. rewrite Hdom. split; [intros (v' & Hv' & ?); congruence | eauto]. }
  unfold mounted_cards. rewrite Hrender. split.
  - destruct (proj2 (Hd k) Hen) as [b Hb]. exists b. split; [done|].
    rewrite reconcile_lookup, bool_decide_true, toggle_card_lookup, decide_True, Hb by done.
    done.
  - intros k' Hne. rewrite reconcile_lookup, toggle_card_lookup, decide_False by congruence.
    case_bool_decide as Hk'.
    + by destruct (proj2 (Hd k') Hk') as [b ->].
    + destruct (c !! k') eqn:E; [|done]. exfalso. apply Hk', Hd. by eexists.
Qed.

(** C12: A click on the button of the card with key [k], seen on the page:
    the next frame shows the same view of [App], every other card's view
    is unchanged, and card [k] shows its details exactly when it did not. *)
Theorem card_click_frame s k s' v cvs :
  reachable s -> step s (CardClick k) s' -> frame s = Normal (v, cvs) ->
  exists cvs', frame s' = Normal (v, cvs') /\
    forall i k' u cv cv', grid_cards v !! i = Some (k', u) ->
      cvs !! i = Some cv -> cvs' !! i = Some cv' ->
      (k' <> k -> cv' = cv) /\
      (k' = k -> (is_Some (cv_details cv') <-> ~ is_Some (cv_details cv))).
Proof.
  intros Hr Hs (Hv & Hg)%render_page_Normal.
  destruct (reachable_inv_aux s Hr) as (_ & _ & _ & _ & _ & Hdom).
  assert (k ∈ grid_keys v) as Hk.
  { inversion Hs as [|st p c v0 e Hv0 Hen]; subst. simpl in *. congruence. }
  apply step_run_event in Hs as ->; [|discriminate].
  destruct (render_grid_total (app s) (toggle_card k (cards s)) v Hv) as (cvs' & Hg' & _).
  exists cvs'. split.
  - unfold frame, run_event. cbn [app cards handler card_effect].
    rewrite render_page_mounted. apply render_page_Normal. by split.
  - intros i k' u cv cv' Hi Hc Hc'.
    destruct (click_card_views _ _ k _ _ i k' u cv cv' Hg Hg' Hi Hc Hc') as [Hne Heq].
    split; [exact Hne|]. intros ->. apply Heq; [done|].
    apply Hdom. eauto.
Qed.

(** C13: A card that was not mounted and appears after a step is collapsed. *)
Theorem card_mounts_collapsed s e s' k :
  step s e s' -> cards s !! k = None -> is_Some (cards s' !! k) -> cards s' !! k = Some false.
Proof.
  intros Hs Hk Hk'. rewrite (step_cards _ _ _ Hs) in *.
  rewrite mounted_cards_lookup_Some, card_effect_None by done. done.
Qed.

(** C14: In every reachable session whose page renders, each card shown
    is rendered with a state the session's card store holds for its key. *)
Theorem reachable_page_cards s v :
  reachable s -> render (app s) = Normal v ->
  exists cvs, render_page (app s) (cards s) = Normal (v, cvs) /\
    forall i k u cv, grid_cards v !! i = Some (k, u) -> cvs !! i = Some cv ->
      exists b, cards s !! k = Some b /\ render_card u b = Normal cv.
Proof.
  intros Hs Hr. destruct (render_grid_total (app s) (cards s) v Hr) as (cvs & Hg & _).
  exists cvs. unfold render_page. rewrite Hr, cbind_normal, Hg. split; [done|].
  intros i k u cv Hi Hc.
  destruct (reachable_inv_aux s Hs) as (_ & _ & _ & _ & _ & Hk).
  destruct (proj2 (Hk k)) as [b Hb].
  { exists v. split; [done|]. rewrite grid_keys_cards, elem_of_map.
    exists (k, u). split; [done|]. by eapply list_elem_of_lookup_2. }
  exists b. split; [done|].
  pose proof (render_grid_lookup _ _ _ _ _ _ _ Hg Hi Hc) as Hr'. rewrite Hb in Hr'. exact Hr'.
Qed.

(** C27: A load whose data holds a record without [address] unmounts the
    page: the first render after the settlement throws [TypeError] reading
    [city], no card stays mounted, and the session accepts no further
    event. *)
Theorem settle_missing_address_unmounts s status data u s' :
  step s (FetchSettled (Response status (BodyUsers data))) s' ->
  res_ok status = true -> u ∈ data -> User.address u = None ->
  render (app s') = Throw (cannot_read "city") /\ cards s' = ∅ /\
  forall e s'', ~ step s' e s''.
Proof.
  intros Hs Hok Hu Ha.
  inversion Hs as [st o c| st p c v e0 Hv He]; subst; [|destruct He].
  assert (render (apply_updates st (fetch_settle (Response status (BodyUsers data)))) =
          Throw (cannot_read "city")) as Hr.
  { unfold fetch_settle, then_json. rewrite Hok. unfold render, cities. simpl.
    by rewrite (array_map_read_city_missing _ u). }
  simpl. unfold mounted_cards. rewrite Hr. split_and!; [done | done |].
  intros e s'' Hs'. inversion Hs'. congruence.
Qed.

(** C16: The load makes progress and loading ends for good: from every
    reachable session whose request is pending, the settlement of the
    request is a step whatever its outcome, and every session reached
    after it, by any events, has [loading] false. *)
Theorem fetch_settles_loading_ends s o :
  reachable s -> pending s = true ->
  exists s', step s (FetchSettled o) s' /\
    forall s'', rtc session_step s' s'' -> loading (app s'') = false.
Proof.
  intros Hs Hp. destruct s as [st p c]. simpl in Hp. subst p.
  eexists. split; [apply step_settle|].
  intros s'' Hr.
  assert (reachable s'') as Hs''.
  { eapply reachable_rtc; [|exact Hr]. eapply reach_step; [exact Hs | apply step_settle]. }
  destruct (reachable_inv_aux _ Hs'') as [-> _].
  eapply settled_stays; [|exact Hr]. reflexivity.
Qed.

(** C18: Typing in the search input while the request is pending commutes
    with the request's settlement: in either order the session reached
    is the same, with the typed text kept and the same cards mounted. *)
Theorem search_settle_commute s t o s1 s2 s3 s4 :
  reachable s -> pending s = true ->
  step s (SearchInput t) s1 -> step s1 (FetchSettled o) s2 ->
  step s (FetchSettled o) s3 -> step s3 (SearchInput t) s4 ->
  s2 = s4.
Proof.
  intros Hr Hp H1 H2 H3 H4.
  pose proof (cards_pending_empty s Hr Hp) as Hc.
  apply step_settle_eq in H2 as ->. apply step_settle_eq in H3 as ->.
  apply step_run_event in H1 as ->; [|discriminate].
  apply step_run_event in H4 as ->; [|discriminate].
  unfold run_event. cbn [app cards pending handler card_effect].
  by rewrite settle_search_commute_app, Hc, !mounted_cards_from_fresh.
Qed.

(** ** Concrete runs on the fixture *)

Import Fixture.
Lemma loaded_session_reachable : reachable loaded_session.
Proof. eapply reach_step; [apply reach_init | apply step_settle]. Defined.

Lemma reachable_inv_witness : reachable loaded_session /\ inv loaded_session.
Proof. split; [apply loaded_session_reachable | apply reachable_inv, loaded_session_reachable]. Defined.

Lemma reachable_single_section_witness :
  exists v, reachable loaded_session /\ render (app loaded_session) = Normal v /\
    exists n, v_body v = [n] /\ (n = LoadingLine <-> pending loaded_session = true).
Proof.
  eexists. split_and!; [apply loaded_session_reachable | vm_compute; reflexivity |].
  apply reachable_single_section; [apply loaded_session_reachable | vm_compute; reflexivity].
Defined.
Lemma empty_message_shows_no_match_witness :
  reachable (MkSession init_state true ∅) /\ then_json (NetworkError "") = Throw (TypeError "") /\
  exn_message (TypeError "") = "" /\
  exists v, render (apply_updates init_state (fetch_settle (NetworkError ""))) = Normal v /\
            v_body v = [Grid [] true].
Proof.
  split_and!; [exact reach_init | reflexivity | reflexivity |].
  apply empty_message_shows_no_match with (c := ∅) (e := TypeError ""); [exact reach_init | reflexivity..].
Defined.

Lemma unbatched_failure_frame_witness :
  reachable (MkSession init_state true ∅) /\
  then_json (Response 500 (BodyUsers [])) = Throw (Error "Failed to fetch") /\
  exn_message (Error "Failed to fetch") <> "" /\
  exists st' v, st' ∈ commit_unbatched init_state (fetch_settle (Response 500 (BodyUsers []))) /\
    render st' = Normal v /\ v_body v = [LoadingLine; ErrorLine "Failed to fetch"].
Proof.
  split_and!; [exact reach_init | reflexivity | discriminate |].
  apply unbatched_failure_frame with (c := ∅) (e := Error "Failed to fetch");
    [exact reach_init | reflexivity | discriminate].
Defined.

Lemma batched_failure_frame_witness :
  reachable (MkSession init_state true ∅) /\
  then_json (NetworkError "Failed to fetch") = Throw (TypeError "Failed to fetch") /\
  exn_message (TypeError "Failed to fetch") <> "" /\
  exists v, commit_batched init_state (fetch_settle (NetworkError "Failed to fetch")) =
      [apply_updates init_state (fetch_settle (NetworkError "Failed to fetch"))] /\
    render (apply_updates init_state (fetch_settle (NetworkError "Failed to fetch"))) = Normal v /\
    v_body v = [ErrorLine "Failed to fetch"].
Proof.
  split_and!; [exact reach_init | reflexivity | discriminate |].
  apply batched_failure_frame with (c := ∅) (e := TypeError "Failed to fetch");
    [exact reach_init | reflexivity | discriminate].
Defined.
Lemma after_search_step : step loaded_session (SearchInput "ette") after_search.
Proof. eapply run_event_step; [vm_compute; reflexivity | exact I]. Qed.

Lemma after_click_step : step after_search (CardClick 2) after_click.
Proof. eapply run_event_step; [vm_compute; reflexivity | vm_compute; set_solver]. Qed.

Lemma after_clear_step : step after_click (SearchInput "") after_clear.
Proof. eapply run_event_step; [vm_compute; reflexivity | exact I]. Qed.

Lemma card_state_kept_witness :
  step loaded_session (SearchInput "ette") after_search /\
  (forall k', SearchInput "ette" <> CardClick k') /\
  is_Some (cards loaded_session !! 2%Z) /\ is_Some (cards after_search !! 2%Z) /\
  cards after_search !! 2%Z = cards loaded_session !! 2%Z.
Proof.
  assert (is_Some (cards loaded_session !! 2%Z)) as H1 by (exists false; vm_compute; reflexivity).
  assert (is_Some (cards after_search !! 2%Z)) as H2 by (exists false; vm_compute; reflexivity).
  split_and!; [exact after_search_step | discriminate | exact H1 | exact H2 |].
  exact (card_state_kept _ _ _ 2 after_search_step ltac:(discriminate) H1 H2).
Defined.

Lemma card_click_step_witness :
  reachable after_search /\ step after_search (CardClick 2) after_click /\
  (exists b, cards after_search !! 2%Z = Some b /\ cards after_click !! 2%Z = Some (negb b)) /\
  (forall k', k' <> 2%Z -> cards after_click !! k' = cards after_search !! k').
Proof.
  assert (reachable after_search) as Hr
    by exact (reach_step _ _ _ loaded_session_reachable after_search_step).
  split; [exact Hr | split; [exact after_click_step |]].
  exact (card_click_step _ _ 2 Hr after_click_step).
Defined.

Lemma card_mounts_collapsed_witness :
  step after_click (SearchInput "") after_clear /\ cards after_click !! 1%Z = None /\
  is_Some (cards after_clear !! 1%Z) /\ cards after_clear !! 1%Z = Some false.
Proof.
  assert (cards after_click !! 1%Z = None) as H1 by (vm_compute; reflexivity).
  assert (is_Some (cards after_clear !! 1%Z)) as H2 by (exists false; vm_compute; reflexivity).
  split_and!; [exact after_clear_step | exact H1 | exact H2 |].
  exact (card_mounts_collapsed _ _ _ 1 after_clear_step H1 H2).
Defined.
Lemma reachable_page_cards_witness :
  reachable after_click /\
  exists v cvs, render (app after_click) = Normal v /\
    render_page (app after_click) (cards after_click) = Normal (v, cvs) /\
    cvs = [ervin_expanded_view] /\ grid_cards v = [(2%Z, ervin)] /\
    exists b, cards after_click !! 2%Z = Some b /\ render_card ervin b = Normal ervin_expanded_view.
Proof.
  assert (reachable after_click) as Hs
    by exact (reach_step _ _ _ (reach_step _ _ _ loaded_session_reachable after_search_step)
                after_click_step).
  pose proof (reachable_page_cards after_click _ Hs eq_refl) as (cvs & Hp & Hc).
  assert (cvs = [ervin_expanded_view]) as ->.
  { assert (render_page (app after_click) (cards after_click) = Normal (_, [ervin_expanded_view]))
      as Hp2 by reflexivity.
    rewrite Hp2 in Hp. congruence. }
  split; [exact Hs|]. eexists. exists [ervin_expanded_view].
  split_and!; [reflexivity | exact Hp | reflexivity | reflexivity |].
  exact (Hc 0 2%Z ervin ervin_expanded_view eq_refl eq_refl).
Defined.

Lemma settle_missing_address_unmounts_witness :
  let o := Response 200 (BodyUsers [leanne; no_address]) in
  let st' := apply_updates init_state (fetch_settle o) in
  step session_init (FetchSettled o) (MkSession st' false (mounted_cards st' ∅)) /\
  render st' = Throw (cannot_read "city") /\ mounted_cards st' ∅ = ∅.
Proof.
  intros o st'.
  assert (step session_init (FetchSettled o) (MkSession st' false (mounted_cards st' ∅)))
    as Hs by apply step_settle.
  assert (no_address ∈ [leanne; no_address]) as Hu by set_solver.
  pose proof (settle_missing_address_unmounts _ 200 _ no_address _ Hs eq_refl Hu eq_refl)
    as (Hr & Hc & _).
  split_and!; [exact Hs | exact Hr | exact Hc].
Defined.
Lemma fetch_settles_loading_ends_witness :
  reachable session_init /\ pending session_init = true /\
  exists s', step session_init (FetchSettled (Response 200 (BodyUsers sample))) s' /\
    forall s'', rtc session_step s' s'' -> loading (app s'') = false.
Proof.
  split_and!; [exact reach_init | reflexivity |].
  exact (fetch_settles_loading_ends session_init _ reach_init eq_refl).
Defined.

Lemma search_settle_commute_witness :
  let o := Response 200 (BodyUsers sample) in
  let s1 := run_event session_init (SearchInput "ette") in
  let s2 := MkSession (apply_updates (app s1) (fetch_settle o)) false
              (mounted_cards (apply_updates (app s1) (fetch_settle o)) (cards s1)) in
  let s3 := MkSession (apply_updates init_state (fetch_settle o)) false
              (mounted_cards (apply_updates init_state (fetch_settle o)) ∅) in
  let s4 := run_event s3 (SearchInput "ette") in
  step session_init (SearchInput "ette") s1 /\ step s1 (FetchSettled o) s2 /\
  step session_init (FetchSettled o) s3 /\ step s3 (SearchInput "ette") s4 /\ s2 = s4.
Proof.
  intros o s1 s2 s3 s4.
  assert (step session_init (SearchInput "ette") s1) as H1
    by (eapply run_event_step; [reflexivity | exact I]).
  assert (step s1 (FetchSettled o) s2) as H2 by apply step_settle.
  assert (step session_init (FetchSettled o) s3) as H3 by apply step_settle.
  assert (step s3 (SearchInput "ette") s4) as H4
    by (eapply run_event_step; [vm_compute; reflexivity | exact I]).
  split_and!; [exact H1 | exact H2 | exact H3 | exact H4 |].
  exact (search_settle_commute _ _ _ _ _ _ _ reach_init eq_refl H1 H2 H3 H4).
Defined.

Lemma reachable_view_wf_witness :
  reachable after_search /\
  exists v, render (app after_search) = Normal v /\ view_wf v.
Proof.
  assert (reachable after_search) as Hs
    by exact (reach_step _ _ _ loaded_session_reachable after_search_step).
  split; [exact Hs|]. eexists. split; [reflexivity|].
  exact (reachable_view_wf after_search _ Hs eq_refl).
Defined.

Lemma card_click_frame_witness :
  reachable after_search /\ step after_search (CardClick 2) after_click /\
  exists v cvs, frame after_search = Normal (v, cvs) /\
    exists cvs', frame after_click = Normal (v, cvs') /\ cvs = [ervin_collapsed_view] /\
      cvs' = [ervin_expanded_view].
Proof.
  assert (reachable after_search) as Hr
    by exact (reach_step _ _ _ loaded_session_reachable after_search_step).
  split; [exact Hr | split; [exact after_click_step |]].
  eexists. exists [ervin_collapsed_view].
  assert (frame after_search = Normal (_, [ervin_collapsed_view])) as Hf by reflexivity.
  split; [exact Hf|].
  destruct (card_click_frame _ _ _ _ _ Hr after_click_step Hf) as (cvs' & Hf' & _).
  exists cvs'. split_and!; [exact Hf' | reflexivity |].
  assert (frame after_click = Normal (_, [ervin_expanded_view])) as Hf2 by reflexivity.
  rewrite Hf2 in Hf'. congruence.
Defined.

End AppSession.
Export AppSession.
